(** * fp-ts-practices: type-class instances, derivation combinators and
      their laws

    A shallow embedding of the instances defined in the TypeScript sources
    (01-eq, 02-ord, 03-semigroup, 04-monoid, 06-functor, 07-applicative and
    the property-based specs), followed by the statements checked against
    them.

    Conventions.
    - [number]: every number that occurs in the modelled programs is an
      integer far inside the range in which IEEE doubles are exact, so
      [number] is [Z] and [+] is [Z.add].  Where a statement quantifies over
      all values of a field, the field type and its strict equality are
      kept abstract instead (see [Eq01]).
    - [string]: a sequence of characters with [+] as concatenation and
      [===] as comparison by value.
    - [Option<A>]: the tagged union [none | some(value)], Rocq's [option].
    - [Array<A>]: [list A].
    - [Record<string, string>]: a finite map [gmap string string]. *)

From Stdlib Require Import ZArith List Bool Lia.
From stdpp Require Import base strings gmap.

Open Scope Z_scope.

Definition number : Type := Z.

(** ** Record shapes

    The struct combinators of fp-ts take a mapped type
    [{ [K in keyof O]: F<O[K]> }].  A [Shape O] is the typed view of the
    record type [O] that such a combinator walks over: its keys in
    enumeration order, the type of each field, the property read [x[k]] and
    the object literal built by assigning every key. *)

Record Shape (O : Type) : Type := {
  key : Type;
  keys : list key;
  field : key -> Type;
  get : forall k : key, O -> field k;
  build : (forall k : key, field k) -> O
}.

Arguments key {O} _.
Arguments keys {O} _.
Arguments field {O} _ _.
Arguments get {O} _ _ _.
Arguments build {O} _ _.

(** type Point = { x: number; y: number }

    The sources declare this type once per file; TypeScript types are
    structural, so it is one type.  The field type is a parameter so that
    statements about all points need not fix what a number is. *)
Record Point (num : Type) : Type := mkPoint { x : num; y : num }.

Arguments mkPoint {num} _ _.
Arguments x {num} _.
Arguments y {num} _.

(** keyof Point *)
Inductive PointKey : Type := Kx | Ky.

Definition pointShape (num : Type) : Shape (Point num) :=
  {| key := PointKey;
     keys := [Kx; Ky];
     field := fun _ => num;
     get := fun k p => match k with Kx => x p | Ky => y p end;
     build := fun f => mkPoint (f Kx) (f Ky) |}.

(** What makes a [Shape] a faithful view of a record type: reading a key
    of a freshly built record gives what was assigned to it, rebuilding a
    record from its own fields gives the record back, and a record depends
    only on what is assigned to its keys. *)
Record LawfulShape {O : Type} (sh : Shape O) : Prop := {
  get_build : forall (f : forall k, field sh k) (k : key sh), get sh k (build sh f) = f k;
  build_get : forall a : O, build sh (fun k => get sh k a) = a;
  build_ext : forall f g : (forall k, field sh k),
      (forall k, f k = g k) -> build sh f = build sh g
}.

(** ** 01-eq *)

Module Eq01.

(** interface Eq<A> { readonly equals: (x: A, y: A) => boolean } *)
Record Eq (A : Type) : Type := { equals : A -> A -> bool }.
Arguments equals {A} _ _ _.

(** Modelled from the spec: getStructEq is imported from fp-ts/lib/Eq and
    is not part of the sources.  Two records are equal iff every field is
    pairwise equal under its own instance; the fields are visited in key
    order and the first unequal field answers false.

    This is the comparison of two records as values.  On objects the
    library answers true on one and the same object before it looks at any
    field; that is [Eq01Obj.getStructEq] below, which agrees with this one
    whenever the field instances are reflexive. *)
Fixpoint getStructEq_loop {O : Type} (sh : Shape O)
    (eqs : forall k, Eq (field sh k)) (ks : list (key sh)) (x y : O) : bool :=
  match ks with
  | [] => true
  | k :: ks' =>
      if negb (equals (eqs k) (get sh k x) (get sh k y)) then false
      else getStructEq_loop sh eqs ks' x y
  end.

Definition getStructEq {O : Type} (sh : Shape O)
    (eqs : forall k, Eq (field sh k)) : Eq O :=
  {| equals := getStructEq_loop sh eqs (keys sh) |}.

Section Points.

(** The field type of [Point] and its strict equality [===] are kept
    abstract here: nothing is assumed about [===], in particular not that
    it is reflexive. *)
Variable num : Type.
Variable strict_equal : num -> num -> bool.

(** const eqNumber: Eq<number> = { equals: (x, y) => x === y } *)
Definition eqNumber : Eq num := {| equals := fun x y => strict_equal x y |}.

(** equals: (p1, p2) => p1.x === p2.x && p1.y === p2.y *)
Definition eqPointManual : Eq (Point num) :=
  {| equals := fun p1 p2 => strict_equal (x p1) (x p2) && strict_equal (y p1) (y p2) |}.

(** const eqPoint: Eq<Point> = getStructEq({ x: eqNumber, y: eqNumber }) *)
Definition eqPoint : Eq (Point num) :=
  getStructEq (pointShape num) (fun k => match k with Kx => eqNumber | Ky => eqNumber end).

End Points.

(** The points logged by the source, with [number] fields. *)
Definition point1 : Point number := mkPoint 1 2.
Definition point2 : Point number := mkPoint 1 2.
Definition point3 : Point number := mkPoint 2 3.

(** Array.prototype.some: true as soon as one element passes the test,
    false for the empty array. *)
Fixpoint array_some {A : Type} (arr : list A) (p : A -> bool) : bool :=
  match arr with
  | [] => false
  | item :: rest => if p item then true else array_some rest p
  end.

(** function elem<A>(E: Eq<A>): (a: A, as: Array<A>) => boolean {
      return (a, as) => as.some((item) => E.equals(item, a)) } *)
Definition elem {A : Type} (E : Eq A) : A -> list A -> bool :=
  fun a arr => array_some arr (fun item => equals E item a).

(** The laws an instance must satisfy, as listed in the source:
    reflexivity, symmetry and transitivity of [equals]. *)
Record LawfulEq {A : Type} (E : Eq A) : Prop := {
  eq_reflexivity : forall a, equals E a a = true;
  eq_symmetry : forall a b, equals E a b = equals E b a;
  eq_transitivity : forall a b c,
      equals E a b = true -> equals E b c = true -> equals E a c = true
}.

(** Modelled from the spec: contramap is imported from fp-ts/lib/Eq and is
    not part of the sources.  Given an instance of Eq for A and a function
    from B to A, it derives an instance for B with
    [equals(x, y) = eqA.equals(f(x), f(y))]. *)
Definition contramap {A B : Type} (f : B -> A) (E : Eq A) : Eq B :=
  {| equals := fun a b => equals E (f a) (f b) |}.

(** type User = { userId: number; name: string } *)
Record User : Type := mkUser { userId : number; name : string }.

(** two users are equal if their [userId] field is equal:
    const eqUser = contramap((user: User) => user.userId)(eqNumber) *)
Definition eqUser : Eq User := contramap userId (eqNumber number Z.eqb).

Definition user1 : User := mkUser 1 "Serj".
Definition user2 : User := mkUser 2 "Morello".
Definition user3 : User := mkUser 1 "Geezer".

End Eq01.

(** ** 01-eq, on objects with identity

    [p1 === p2] on two points compares references, not fields.  A store
    gives the record each reference points to; the instances of 01-eq are
    read here on references into a store. *)

Module Eq01Obj.

(** What matters of a [number] for [===]: a finite value, or NaN, which is
    not [===] to anything, itself included. *)
Inductive jsnumber : Type := Finite (z : Z) | NaN.

Definition jsnumber_strict_equal (a b : jsnumber) : bool :=
  match a, b with
  | Finite u, Finite v => u =? v
  | _, _ => false
  end.

Definition reference : Type := positive.

(** [p1 === p2] on objects *)
Definition same_object (p1 p2 : reference) : bool := Pos.eqb p1 p2.

(** Modelled from the spec: getStructEq is imported from fp-ts/lib/Eq and
    is not part of the sources.  The fields are compared key by key, each
    under its own instance; like the source's [eqPointManualB], the
    instance the library builds first checks reference equality. *)
Definition getStructEq {O : Type} (store : reference -> O) (sh : Shape O)
    (eqs : forall k, Eq01.Eq (field sh k)) : Eq01.Eq reference :=
  {| Eq01.equals := fun p1 p2 =>
       same_object p1 p2 ||
       Eq01.getStructEq_loop sh eqs (keys sh) (store p1) (store p2) |}.

Section Points.

Variable num : Type.
Variable strict_equal : num -> num -> bool.
Variable store : reference -> Point num.

(** equals: (p1, p2) => p1.x === p2.x && p1.y === p2.y *)
Definition eqPointManual : Eq01.Eq reference :=
  {| Eq01.equals := fun p1 p2 =>
       strict_equal (x (store p1)) (x (store p2)) &&
       strict_equal (y (store p1)) (y (store p2)) |}.

(** eqPoint but first checks reference equality:
    equals: (p1, p2) => p1 === p2 || (p1.x === p2.x && p1.y === p2.y) *)
Definition eqPointManualB : Eq01.Eq reference :=
  {| Eq01.equals := fun p1 p2 =>
       same_object p1 p2 ||
       (strict_equal (x (store p1)) (x (store p2)) &&
        strict_equal (y (store p1)) (y (store p2))) |}.

(** const eqPoint: Eq<Point> = getStructEq({ x: eqNumber, y: eqNumber }) *)
Definition eqPoint : Eq01.Eq reference :=
  getStructEq store (pointShape num)
    (fun k => match k with
              | Kx => Eq01.eqNumber num strict_equal
              | Ky => Eq01.eqNumber num strict_equal
              end).

End Points.

(** A store in which every reference points to [{ x: NaN, y: 0 }]. *)
Definition nanStore : reference -> Point jsnumber :=
  fun _ => mkPoint NaN (Finite 0).

(** A store with [{ x: 1, y: 2 }] at references 1 and 2 and
    [{ x: 2, y: 3 }] elsewhere: the points point1, point2 and point3 of the
    source. *)
Definition pointStore : reference -> Point jsnumber :=
  fun p => match p with
           | 1%positive | 2%positive => mkPoint (Finite 1) (Finite 2)
           | _ => mkPoint (Finite 2) (Finite 3)
           end.

End Eq01Obj.

(** ** 02-ord *)

Module Ord02.

(** type Ordering = -1 | 0 | 1 *)
Inductive Ordering : Type := OLt | OEq | OGt.

(** The numeric value of an [Ordering]. *)
Definition sign (o : Ordering) : Z :=
  match o with OLt => -1 | OEq => 0 | OGt => 1 end.

(** Unary minus on [Ordering]. *)
Definition negate (o : Ordering) : Ordering :=
  match o with OLt => OGt | OEq => OEq | OGt => OLt end.

(** [o === 1] and [o === 0] *)
Definition is_1 (o : Ordering) : bool :=
  match o with OGt => true | _ => false end.
Definition is_0 (o : Ordering) : bool :=
  match o with OEq => true | _ => false end.

(** interface IOrd<A> extends Eq<A> { readonly compare: (x: A, y: A) => Ordering } *)
Record Ord (A : Type) : Type := {
  equals : A -> A -> bool;
  compare : A -> A -> Ordering
}.
Arguments equals {A} _ _ _.
Arguments compare {A} _ _ _.

(** const ordNumberA = { equals: (x, y) => x === y,
                         compare: (x, y) => (x < y ? -1 : x > y ? 1 : 0) } *)
Definition ordNumberA : Ord number :=
  {| equals := fun x y => x =? y;
     compare := fun x y => if x <? y then OLt else if x >? y then OGt else OEq |}.

(** Modelled from the spec: fromCompare is imported from fp-ts/lib/Ord and
    is not part of the sources.  As the source notes, the lawful [equals]
    is derived from [compare] by [equals: (x, y) => compare(x, y) === 0]. *)
Definition fromCompare {A : Type} (cmp : A -> A -> Ordering) : Ord A :=
  {| equals := fun x y => is_0 (cmp x y); compare := cmp |}.

(** const ordNumber = fromCompare((x, y) => (x < y ? -1 : x > y ? 1 : 0)) *)
Definition ordNumber : Ord number :=
  fromCompare (fun x y => if x <? y then OLt else if x >? y then OGt else OEq).

(** function min<A>(O: Ord<A>): (x: A, y: A) => A {
      return (x, y) => (O.compare(x, y) === 1 ? y : x) } *)
Definition min {A : Type} (O : Ord A) : A -> A -> A :=
  fun x y => if is_1 (compare O x y) then y else x.

(** Modelled from the spec: getDualOrd is imported from fp-ts/lib/Ord and
    is not part of the sources.  It swaps the order: the library compares
    with the arguments exchanged, [compare(x, y) = ord.compare(y, x)]. *)
Definition getDualOrd {A : Type} (O : Ord A) : Ord A :=
  fromCompare (fun x y => compare O y x).

(** The words of the specification for the dual order:
    [compare(x, y) = -ord.compare(x, y)].  It is [getDualOrd] whenever
    exchanging the arguments of [compare] negates its result. *)
Definition negatedDualOrd {A : Type} (O : Ord A) : Ord A :=
  fromCompare (fun x y => negate (compare O x y)).

(** function max<A>(O: Ord<A>): (x: A, y: A) => A { return min(getDualOrd(O)) } *)
Definition max {A : Type} (O : Ord A) : A -> A -> A :=
  min (getDualOrd O).

(** Modelled from the spec: contramap is imported from fp-ts/lib/Ord and is
    not part of the sources.  The order is transported backwards through a
    projection: [compare(x, y) = ord.compare(f(x), f(y))]. *)
Definition contramap {A B : Type} (f : B -> A) (O : Ord A) : Ord B :=
  fromCompare (fun x y => compare O (f x) (f y)).

(** type User = { name: string; age: number } *)
Record User : Type := mkUser { name : string; age : number }.

(** const byAge: Ord<User> = contramap(fnContramap)(ordNumber) *)
Definition fnContramap (user : User) : number := age user.
Definition byAge : Ord User := contramap fnContramap ordNumber.

Definition user1 : User := mkUser "Dimebag" 34.
Definition user2 : User := mkUser "Mercury" 31.


(** [x <= y] under [O]: [O.compare(x, y) <= 0]. *)
Definition leq {A : Type} (O : Ord A) (x y : A) : Prop :=
  sign (compare O x y) <= 0.

(** The laws listed in the source for an [Ord] instance (compatibility of
    [compare] with equality, antisymmetry, transitivity), with equality
    read as identity of values, together with totality. *)
Record TotalOrder {A : Type} (O : Ord A) : Prop := {
  compare_0_iff : forall x y, compare O x y = OEq <-> x = y;
  antisymmetry : forall x y, leq O x y -> leq O y x -> x = y;
  transitivity : forall x y z, leq O x y -> leq O y z -> leq O x z;
  totality : forall x y, leq O x y \/ leq O y x
}.

(** [m] is a least (greatest) element of the values selected by [P]. *)
Definition is_least {A : Type} (O : Ord A) (P : A -> Prop) (m : A) : Prop :=
  P m /\ forall a, P a -> leq O m a.

Definition is_greatest {A : Type} (O : Ord A) (P : A -> Prop) (m : A) : Prop :=
  P m /\ forall a, P a -> leq O a m.

End Ord02.

(** ** 03-semigroup *)

Module Semigroup03.

(** interface Semigroup<A> { concat: (x: A, y: A) => A } *)
Record Semigroup (A : Type) : Type := { concat : A -> A -> A }.
Arguments concat {A} _ _ _.

(** number [Semigroup] under multiplication *)
Definition semigroupProduct : Semigroup number := {| concat := fun x y => x * y |}.

(** number [Semigroup] under addition *)
Definition semigroupSum : Semigroup number := {| concat := fun x y => x + y |}.

Definition semigroupString : Semigroup string :=
  {| concat := fun x y => String.append x y |}.

(** Always return the first argument *)
Definition getFirstSemigroup {A : Type} : Semigroup A := {| concat := fun x _ => x |}.

(** Always return the second argument *)
Definition getLastSemigroup {A : Type} : Semigroup A := {| concat := fun _ y => y |}.

Definition getArraySemigroup {A : Type} : Semigroup (list A) :=
  {| concat := fun x y => x ++ y |}.

(** Modelled from the spec: getMeetSemigroup is imported from
    fp-ts/lib/Semigroup and is not part of the sources.  [meet(ord)]
    returns the lesser of two values under [ord]; taking the minimum of two
    values is the function [min] of 02-ord. *)
Definition getMeetSemigroup {A : Type} (O : Ord02.Ord A) : Semigroup A :=
  {| concat := Ord02.min O |}.

(** Modelled from the spec: getJoinSemigroup is imported from
    fp-ts/lib/Semigroup and is not part of the sources.  [join(ord)]
    returns the greater of two values under [ord]; taking the maximum of
    two values is the function [max] of 02-ord. *)
Definition getJoinSemigroup {A : Type} (O : Ord02.Ord A) : Semigroup A :=
  {| concat := Ord02.max O |}.

(** Takes the minimum of two values *)
Definition semigroupMin : Semigroup number := getMeetSemigroup Ord02.ordNumber.

(** Takes the maximum of two values *)
Definition semigroupMax : Semigroup number := getJoinSemigroup Ord02.ordNumber.

Definition semigroupPoint : Semigroup (Point number) :=
  {| concat := fun p1 p2 =>
       {| x := concat semigroupSum (x p1) (x p2);
          y := concat semigroupSum (y p1) (y p2) |} |}.

Definition p1 : Point number := mkPoint 10 15.
Definition p2 : Point number := mkPoint 3 5.

(** Modelled from the spec: getStructSemigroup is imported from
    fp-ts/lib/Semigroup and is not part of the sources.  The combine of the
    struct instance is field-wise: every key of the result holds the
    combine, under that key's instance, of the two operands' fields. *)
Definition getStructSemigroup {O : Type} (sh : Shape O)
    (semigroups : forall k, Semigroup (field sh k)) : Semigroup O :=
  {| concat := fun a b =>
       build sh (fun k => concat (semigroups k) (get sh k a) (get sh k b)) |}.

(** const semigroupPointB = getStructSemigroup({ x: semigroupSum, y: semigroupSum }) *)
Definition semigroupPointB : Semigroup (Point number) :=
  getStructSemigroup (pointShape number)
    (fun k => match k with Kx => semigroupSum | Ky => semigroupSum end).

(** Array.prototype.reduce with an initial value: the accumulator starts
    at [init] and absorbs the elements in index order. *)
Fixpoint reduce {A B : Type} (f : B -> A -> B) (init : B) (arr : list A) : B :=
  match arr with
  | [] => init
  | v :: rest => reduce f (f init v) rest
  end.

(** Modelled from the spec: fold is imported from fp-ts/lib/Semigroup and
    is not part of the sources.  It takes a semigroup instance, an initial
    value and an array of elements, and reduces the array with [concat]
    starting from the initial value. *)
Definition fold {A : Type} (S : Semigroup A) : A -> list A -> A :=
  fun a arr => reduce (concat S) a arr.

(** const sum = fold(semigroupSum) *)
Definition sum : number -> list number -> number := fold semigroupSum.

(** const product = fold(semigroupProduct) *)
Definition product : number -> list number -> number := fold semigroupProduct.

(** Modelled from the spec: getApplySemigroup is imported from
    fp-ts/lib/Option and is not part of the sources.  Its table is given in
    the source: the result is none as soon as one operand is none, and two
    present values are merged with the semigroup of the carried type. *)
Definition getApplySemigroup {A : Type} (S : Semigroup A) : Semigroup (option A) :=
  {| concat := fun a b =>
       match a, b with
       | Some va, Some vb => Some (concat S va vb)
       | _, _ => None
       end |}.

(** const S = getApplySemigroup(semigroupSum) *)
Definition S : Semigroup (option number) := getApplySemigroup semigroupSum.

(** function of<A>(a: A): Array<A> { return [a] } *)
Definition of_ {A : Type} (a : A) : list A := [a].

(** The law of the source:
    concat(concat(x, y), z) = concat(x, concat(y, z)), for all x, y, z. *)
Definition Associative {A : Type} (S : Semigroup A) : Prop :=
  forall a b c : A, concat S (concat S a b) c = concat S a (concat S b c).

End Semigroup03.

(** ** 04-monoid *)

Module Monoid04.

(** interface Monoid<A> extends Semigroup<A> { readonly empty: A } *)
Record Monoid (A : Type) : Type := {
  semigroup : Semigroup03.Semigroup A;
  empty : A
}.
Arguments semigroup {A} _.
Arguments empty {A} _.

(** [M.concat] *)
Definition concat {A : Type} (M : Monoid A) : A -> A -> A :=
  Semigroup03.concat (semigroup M).

(** number [Monoid] under addition *)
Definition monoidSum : Monoid number :=
  {| semigroup := {| Semigroup03.concat := fun x y => x + y |}; empty := 0 |}.

(** number [Monoid] under multiplication *)
Definition monoidProduct : Monoid number :=
  {| semigroup := {| Semigroup03.concat := fun x y => x * y |}; empty := 1 |}.

Definition monoidString : Monoid string :=
  {| semigroup := {| Semigroup03.concat := fun x y => String.append x y |};
     empty := EmptyString |}.

(** boolean monoid under conjunction *)
Definition monoidAll : Monoid bool :=
  {| semigroup := {| Semigroup03.concat := fun x y => x && y |}; empty := true |}.

(** boolean monoid under disjunction *)
Definition monoidAny : Monoid bool :=
  {| semigroup := {| Semigroup03.concat := fun x y => x || y |}; empty := false |}.

(** A semigroup that is not a monoid:
    const semigroupSpace = { concat: (x, y) => x + ' ' + y } *)
Definition semigroupSpace : Semigroup03.Semigroup string :=
  {| Semigroup03.concat := fun x y => String.append (String.append x " ") y |}.

(** Modelled from the spec: getStructMonoid is imported from
    fp-ts/lib/Monoid and is not part of the sources.  Combine is
    field-wise, and the identity is the record of each field's identity. *)
Definition getStructMonoid {O : Type} (sh : Shape O)
    (monoids : forall k, Monoid (field sh k)) : Monoid O :=
  {| semigroup := Semigroup03.getStructSemigroup sh (fun k => semigroup (monoids k));
     empty := build sh (fun k => empty (monoids k)) |}.

(** const monoidPoint = getStructMonoid({ x: monoidSum, y: monoidSum }) *)
Definition monoidPoint : Monoid (Point number) :=
  getStructMonoid (pointShape number)
    (fun k => match k with Kx => monoidSum | Ky => monoidSum end).

(** Modelled from the spec: fold is imported from fp-ts/lib/Monoid and is
    not part of the sources.  No initial value is given: the reduction
    starts from the monoid's own [empty]. *)
Definition fold {A : Type} (M : Monoid A) : list A -> A :=
  fun arr => Semigroup03.reduce (concat M) (empty M) arr.

(** The words of the specification: the left-to-right reduction of a
    sequence by [combine], starting from an initial value. *)
Definition left_to_right_reduction {A : Type} (combine : A -> A -> A)
    (initial : A) (sequence : list A) : A :=
  List.fold_left combine sequence initial.

(** The laws of the source: associativity of [concat] (a monoid is a
    semigroup), right identity [concat(x, empty) = x] and left identity
    [concat(empty, x) = x]. *)
Record LawfulMonoid {A : Type} (M : Monoid A) : Prop := {
  associativity : forall a b c : A, concat M (concat M a b) c = concat M a (concat M b c);
  right_identity : forall a : A, concat M a (empty M) = a;
  left_identity : forall a : A, concat M (empty M) a = a
}.

(** Modelled from the spec: getApplyMonoid is imported from fp-ts/lib/Option
    and is not part of the sources.  Its table is given in the source: none
    as soon as one operand is none, [some(concat(a, b))] on two present
    values; its [empty] is the present identity of the carried monoid, as
    [M.concat(some(1), M.empty)] logging [some(1)] requires. *)
Definition getApplyMonoid {A : Type} (M : Monoid A) : Monoid (option A) :=
  {| semigroup := Semigroup03.getApplySemigroup (semigroup M);
     empty := Some (empty M) |}.

(** Modelled from the spec: getFirstMonoid is imported from
    fp-ts/lib/Option and is not part of the sources.  Its table is given in
    the source: the left-most non-none value, none on two absent values. *)
Definition getFirstMonoid {A : Type} : Monoid (option A) :=
  {| semigroup :=
       {| Semigroup03.concat := fun a b =>
            match a with Some _ => a | None => b end |};
     empty := None |}.

(** Modelled from the spec: getLastMonoid is imported from fp-ts/lib/Option
    and is not part of the sources.  Its table is given in the source: the
    right-most non-none value, none on two absent values. *)
Definition getLastMonoid {A : Type} : Monoid (option A) :=
  {| semigroup :=
       {| Semigroup03.concat := fun a b =>
            match b with Some _ => b | None => a end |};
     empty := None |}.

End Monoid04.

(** ** 06-functor *)

Module Functor06.

(** interface Response<A> { url: string; status: number;
                            headers: Record<string, string>; body: A } *)
Record Response (A : Type) : Type := mkResponse {
  url : string;
  status : number;
  headers : gmap string string;
  body : A
}.
Arguments mkResponse {A} _ _ _ _.
Arguments url {A} _.
Arguments status {A} _.
Arguments headers {A} _.
Arguments body {A} _.

(** The object spread [{ ...fa, body: v }]: every own property of [fa] is
    copied, then [body] is overwritten. *)
Definition spread_with_body {A B : Type} (fa : Response A) (v : B) : Response B :=
  {| url := url fa; status := status fa; headers := headers fa; body := v |}.

(** function map<A, B>(fa: Response<A>, f: (a: A) => B): Response<B> {
      return { ...fa, body: f(fa.body) } } *)
Definition map {A B : Type} (fa : Response A) (f : A -> B) : Response B :=
  spread_with_body fa (f (body fa)).

(** interface Functor1<F> { URI; map } *)
Record Functor1 (F : Type -> Type) : Type := {
  URI : string;
  fmap1 : forall A B : Type, F A -> (A -> B) -> F B
}.
Arguments URI {F} _.
Arguments fmap1 {F} _ {A B} _ _.

(** export const functorResponse: Functor1<URI> = { URI, map } *)
Definition functorResponse : Functor1 Response :=
  {| URI := "Response"; fmap1 := fun A B => @map A B |}.

(** const resp = { url: URI, status: 200, headers: { Authorization: 'Bearer' }, body: 540 } *)
Definition resp : Response number :=
  mkResponse "Response" 200 {[ "Authorization" := "Bearer" ]} 540.

End Functor06.

(** ** 07-applicative *)

Module Applicative07.

(** interface Apply<F> extends Functor<F> { ap }  and
    interface Applicative<F> extends Apply<F> { of } *)
Record Apply1 (F : Type -> Type) : Type := {
  map : forall A B : Type, F A -> (A -> B) -> F B;
  ap : forall A B : Type, F (A -> B) -> F A -> F B
}.
Arguments map {F} _ {A B} _ _.
Arguments ap {F} _ {A B} _ _.

Record Applicative1 (F : Type -> Type) : Type := {
  apply1 : Apply1 F;
  of_ : forall A : Type, A -> F A
}.
Arguments apply1 {F} _.
Arguments of_ {F} _ {A} _.

(** Modelled from the spec: flatten is imported from fp-ts/lib/Array and is
    not part of the sources.  It removes one level of nesting, keeping the
    inner arrays' elements in order, which is the cartesian expansion the
    specification describes and the result [5, 6, 6, 7] the source logs. *)
Fixpoint flatten {A : Type} (mma : list (list A)) : list A :=
  match mma with
  | [] => []
  | inner :: rest => inner ++ flatten rest
  end.

(** Array.prototype.map *)
Fixpoint array_map {A B : Type} (arr : list A) (f : A -> B) : list B :=
  match arr with
  | [] => []
  | a :: rest => f a :: array_map rest f
  end.

(** const applicativeArray = {
      map: (fa, f) => fa.map(f),
      of: (a) => [a],
      ap: (fab, fa) => flatten(fab.map((f) => fa.map(f))) } *)
Definition applicativeArray : Applicative1 list :=
  {| apply1 :=
       {| map := fun A B (fa : list A) (f : A -> B) => array_map fa f;
          ap := fun A B (fab : list (A -> B)) (fa : list A) =>
                  flatten (array_map fab (fun f => array_map fa f)) |};
     of_ := fun A (a : A) => [a] |}.

Definition isNone {A : Type} (fa : option A) : bool :=
  match fa with None => true | Some _ => false end.

(** map: (fa, f) => (isNone(fa) ? none : some(f(fa.value))) *)
Definition option_map_ {A B : Type} (fa : option A) (f : A -> B) : option B :=
  match fa with
  | None => None
  | Some value => Some (f value)
  end.

(** const applicativeOption = {
      map: (fa, f) => (isNone(fa) ? none : some(f(fa.value))),
      of: (a) => some(a),
      ap: (fab, fa) => isNone(fab) ? none : applicativeOption.map(fa, fab.value) } *)
Definition applicativeOption : Applicative1 option :=
  {| apply1 :=
       {| map := fun A B (fa : option A) (f : A -> B) => option_map_ fa f;
          ap := fun A B (fab : option (A -> B)) (fa : option A) =>
                  match fab with
                  | None => None
                  | Some value => option_map_ fa value
                  end |};
     of_ := fun A (a : A) => Some a |}.

(** export function liftA2<F>(F: Apply1<F>) {
      return (g) => (fb) => (fc) => F.ap(F.map(fb, g), fc) } *)
Definition liftA2 {F : Type -> Type} (Fi : Apply1 F) {B C D : Type}
    (g : B -> C -> D) : F B -> F C -> F D :=
  fun fb fc => ap Fi (map Fi fb g) fc.

End Applicative07.

(** ** specs/semigroup.spec: the property-based test of a semigroup *)

Module SemigroupSpec.

(** const S: Semigroup<string> = { concat: (x, y) => x + ' ' + y } *)
Definition S : Semigroup03.Semigroup string :=
  {| Semigroup03.concat := fun x y => String.append (String.append x " ") y |}.

(** const associativity = (x, y, z) =>
      S.concat(S.concat(x, y), z) === S.concat(x, S.concat(y, z)) *)
Definition associativity (x y z : string) : bool :=
  String.eqb (Semigroup03.concat S (Semigroup03.concat S x y) z)
             (Semigroup03.concat S x (Semigroup03.concat S y z)).

End SemigroupSpec.

(** ** specs/monoid.spec: the property-based test of a monoid *)

Module MonoidSpec.

(** const S: Semigroup<string> = { concat: (x, y) => x + y } *)
Definition S : Semigroup03.Semigroup string :=
  {| Semigroup03.concat := fun x y => String.append x y |}.

(** const M: Monoid<string> = { ...S, empty: '' } *)
Definition M : Monoid04.Monoid string :=
  {| Monoid04.semigroup := S; Monoid04.empty := EmptyString |}.

(** const rightIdentity = (x: string) => M.concat(x, M.empty) === x *)
Definition rightIdentity (x : string) : bool :=
  String.eqb (Monoid04.concat M x (Monoid04.empty M)) x.

(** const leftIdentity = (x: string) => M.concat(M.empty, x) === x *)
Definition leftIdentity (x : string) : bool :=
  String.eqb (Monoid04.concat M (Monoid04.empty M) x) x.

End MonoidSpec.

(** ** 06-functor: the lift functions *)

Module Lift06.

(** function liftArr<B, C>(g: (b: B) => C): (fb: Array<B>) => Array<C> {
      return (fb) => fb.map(g) } *)
Definition liftArr {B C : Type} (g : B -> C) : list B -> list C :=
  fun fb => Applicative07.array_map fb g.

(** function liftOpt<B, C>(g: (b: B) => C): (fb: Option<B>) => Option<C> {
      return (fb) => (isNone(fb) ? none : some(g(fb.value))) } *)
Definition liftOpt {B C : Type} (g : B -> C) : option B -> option C :=
  fun fb => match fb with None => None | Some value => Some (g value) end.

End Lift06.

(** ** 03-semigroup: the merge strategy for customer records *)

Module Customer03.

(** interface Customer { name: string; favouriteThings: Array<string>;
      registeredAt: number; lastUpdatedAt: number; hasMadePurchase: boolean } *)
Record Customer : Type := mkCustomer {
  name : string;
  favouriteThings : list string;
  registeredAt : number;
  lastUpdatedAt : number;
  hasMadePurchase : bool
}.

(** keyof Customer *)
Inductive CustomerKey : Type :=
  Kname | KfavouriteThings | KregisteredAt | KlastUpdatedAt | KhasMadePurchase.

Definition customerField (k : CustomerKey) : Type :=
  match k with
  | Kname => string
  | KfavouriteThings => list string
  | KregisteredAt => number
  | KlastUpdatedAt => number
  | KhasMadePurchase => bool
  end.

Definition customerShape : Shape Customer :=
  {| key := CustomerKey;
     keys := [Kname; KfavouriteThings; KregisteredAt; KlastUpdatedAt; KhasMadePurchase];
     field := customerField;
     get := fun k c =>
       match k as k0 return customerField k0 with
       | Kname => name c
       | KfavouriteThings => favouriteThings c
       | KregisteredAt => registeredAt c
       | KlastUpdatedAt => lastUpdatedAt c
       | KhasMadePurchase => hasMadePurchase c
       end;
     build := fun f =>
       mkCustomer (f Kname) (f KfavouriteThings) (f KregisteredAt)
                  (f KlastUpdatedAt) (f KhasMadePurchase) |}.

(** Modelled from the spec: getMonoid is imported from fp-ts/lib/Array and
    is not part of the sources.  As the source notes, it accumulates: its
    [concat] appends the second array to the first, like the source's own
    [getArraySemigroup]; its [empty] is the empty array. *)
Definition getMonoid {A : Type} : Monoid04.Monoid (list A) :=
  {| Monoid04.semigroup := Semigroup03.getArraySemigroup; Monoid04.empty := [] |}.

(** Modelled from the spec: semigroupAny is imported from
    fp-ts/lib/Semigroup and is not part of the sources.  It is the boolean
    semigroup under disjunction, the [concat] of the source's [monoidAny]. *)
Definition semigroupAny : Semigroup03.Semigroup bool :=
  {| Semigroup03.concat := fun a b => a || b |}.

(** [s.length] *)
Definition string_length (s : string) : number := Z.of_nat (String.length s).

(** const semigroupCustomer: Semigroup<Customer> = getStructSemigroup({
      name: getJoinSemigroup(contramap((s: string) => s.length)(ordNumber)),
      favouriteThings: getMonoid<string>(),
      registeredAt: getMeetSemigroup(ordNumber),
      lastUpdatedAt: getJoinSemigroup(ordNumber),
      hasMadePurchase: semigroupAny }) *)
Definition semigroupCustomer : Semigroup03.Semigroup Customer :=
  Semigroup03.getStructSemigroup customerShape
    (fun k =>
       match k as k0 return Semigroup03.Semigroup (customerField k0) with
       | Kname =>
           Semigroup03.getJoinSemigroup (Ord02.contramap string_length Ord02.ordNumber)
       | KfavouriteThings => Monoid04.semigroup getMonoid
       | KregisteredAt => Semigroup03.getMeetSemigroup Ord02.ordNumber
       | KlastUpdatedAt => Semigroup03.getJoinSemigroup Ord02.ordNumber
       | KhasMadePurchase => semigroupAny
       end).

(** const foldCustomer = fold(semigroupCustomer) *)
Definition foldCustomer : Customer -> list Customer -> Customer :=
  Semigroup03.fold semigroupCustomer.

End Customer03.

(** * Statements *)

(** ** Strings *)

Lemma append_assoc (a b c : string) :
  String.append (String.append a b) c = String.append a (String.append b c).
Proof.
  induction a as [|ch a IH].
  - reflexivity.
  - change (String ch (String.append (String.append a b) c) =
            String ch (String.append a (String.append b c))).
    now rewrite IH.
Qed.

(** ** The separator semigroup of the property-based test *)

Lemma separator_concat_assoc (x y z : string) :
  Semigroup03.concat SemigroupSpec.S (Semigroup03.concat SemigroupSpec.S x y) z =
  Semigroup03.concat SemigroupSpec.S x (Semigroup03.concat SemigroupSpec.S y z).
Proof.
  unfold SemigroupSpec.S, Semigroup03.concat.
  rewrite !append_assoc. reflexivity.
Qed.

(** C1 (as amended): for the operation [combine(x, y) = x + " " + y] of the
    property-based test, [concat(concat(x, y), z)] and
    [concat(x, concat(y, z))] are the same string for every triple of
    strings, so the associativity predicate answers true on every
    generated triple and the instance is accepted as lawful. *)
Theorem separator_semigroup_associativity_holds :
  forall x y z : string, SemigroupSpec.associativity x y z = true.
Proof.
  intros x y z. unfold SemigroupSpec.associativity.
  rewrite separator_concat_assoc. apply String.eqb_refl.
Qed.

(** C1 (as stated, refuted): on the triple ["a"], ["b"], ["c"] both
    parenthesisations give ["a b c"]; the two results do not differ and
    the predicate accepts the triple. *)
Lemma separator_semigroup_abc_not_rejected :
  Semigroup03.concat SemigroupSpec.S (Semigroup03.concat SemigroupSpec.S "a" "b") "c" = "a b c"%string /\
  Semigroup03.concat SemigroupSpec.S "a" (Semigroup03.concat SemigroupSpec.S "b" "c") = "a b c"%string /\
  SemigroupSpec.associativity "a" "b" "c" = true /\
  ~ (exists x y z : string,
       Semigroup03.concat SemigroupSpec.S (Semigroup03.concat SemigroupSpec.S x y) z <>
       Semigroup03.concat SemigroupSpec.S x (Semigroup03.concat SemigroupSpec.S y z)).
Proof.
  repeat split; try reflexivity.
  intros (x & y & z & Hne). apply Hne, separator_concat_assoc.
Qed.

(** The same operation has no identity: it is a semigroup, not a monoid. *)
Lemma separator_semigroup_no_identity (e : string) :
  Semigroup03.concat Monoid04.semigroupSpace EmptyString e <> EmptyString.
Proof. cbn. discriminate. Qed.

(** ** Struct semigroup and monoid of points *)

(** C2: the struct semigroup and the struct monoid over [{x, y}] with
    number addition on each field send [{x:10, y:15}] and [{x:3, y:5}] to
    [{x:13, y:20}]; the identity of the struct monoid is [{x:0, y:0}], and
    combining either operand with it, on either side, returns the operand. *)
Theorem struct_point_sum_scenario :
  Semigroup03.concat Semigroup03.semigroupPoint Semigroup03.p1 Semigroup03.p2 = mkPoint 13 20 /\
  Semigroup03.concat Semigroup03.semigroupPointB Semigroup03.p1 Semigroup03.p2 = mkPoint 13 20 /\
  Monoid04.concat Monoid04.monoidPoint Semigroup03.p1 Semigroup03.p2 = mkPoint 13 20 /\
  Monoid04.empty Monoid04.monoidPoint = mkPoint 0 0 /\
  Monoid04.concat Monoid04.monoidPoint Semigroup03.p1 (mkPoint 0 0) = Semigroup03.p1 /\
  Monoid04.concat Monoid04.monoidPoint (mkPoint 0 0) Semigroup03.p1 = Semigroup03.p1 /\
  Monoid04.concat Monoid04.monoidPoint Semigroup03.p2 (mkPoint 0 0) = Semigroup03.p2 /\
  Monoid04.concat Monoid04.monoidPoint (mkPoint 0 0) Semigroup03.p2 = Semigroup03.p2.
Proof. repeat split; reflexivity. Qed.

(** The derived struct semigroup is the hand-written one, and the identity
    of the struct monoid is neutral for every point. *)
Lemma semigroupPointB_is_semigroupPoint (a b : Point number) :
  Semigroup03.concat Semigroup03.semigroupPointB a b =
  Semigroup03.concat Semigroup03.semigroupPoint a b.
Proof. reflexivity. Qed.

Lemma monoidPoint_identity (p : Point number) :
  Monoid04.concat Monoid04.monoidPoint p (Monoid04.empty Monoid04.monoidPoint) = p /\
  Monoid04.concat Monoid04.monoidPoint (Monoid04.empty Monoid04.monoidPoint) p = p.
Proof.
  destruct p as [px py]. cbn. split; f_equal; lia.
Qed.

(** ** Struct equality of points *)

(** C7 (as amended): for all points [p] and [q], [eqPoint.equals(p, q)] is
    true iff [p] and [q] are the same object or every field is pairwise
    equal under its field instance ([p.x === q.x] and [p.y === q.y]); it
    coincides with the source's [eqPointManualB.equals], which first checks
    reference equality.  It coincides with the hand-written
    [eqPointManual.equals] on every two different objects, and on one and
    the same object whenever each of its fields is [===] to itself. *)
Theorem eqPoint_is_eqPointManualB :
  forall (num : Type) (strict_equal : num -> num -> bool)
         (store : Eq01Obj.reference -> Point num) (p q : Eq01Obj.reference),
    Eq01.equals (Eq01Obj.eqPoint num strict_equal store) p q =
      Eq01.equals (Eq01Obj.eqPointManualB num strict_equal store) p q /\
    (Eq01.equals (Eq01Obj.eqPoint num strict_equal store) p q = true <->
       p = q \/
       (strict_equal (x (store p)) (x (store q)) = true /\
        strict_equal (y (store p)) (y (store q)) = true)) /\
    (p <> q ->
       Eq01.equals (Eq01Obj.eqPoint num strict_equal store) p q =
       Eq01.equals (Eq01Obj.eqPointManual num strict_equal store) p q) /\
    (strict_equal (x (store p)) (x (store p)) = true ->
     strict_equal (y (store p)) (y (store p)) = true ->
       Eq01.equals (Eq01Obj.eqPoint num strict_equal store) p p =
       Eq01.equals (Eq01Obj.eqPointManual num strict_equal store) p p).
Proof.
  intros num strict_equal store p q. cbn. unfold Eq01Obj.same_object.
  repeat apply conj.
  - destruct (strict_equal (x (store p)) (x (store q))),
      (strict_equal (y (store p)) (y (store q))); reflexivity.
  - destruct (Pos.eqb_spec p q) as [Heq | Hne]; cbn.
    + intros _. now left.
    + destruct (strict_equal (x (store p)) (x (store q))),
        (strict_equal (y (store p)) (y (store q))); cbn;
        try discriminate. intros _. now right.
  - intros [Heq | [Hx Hy]].
    + subst q. now rewrite Pos.eqb_refl.
    + rewrite Hx, Hy. cbn. apply orb_true_r.
  - intros Hne. apply Pos.eqb_neq in Hne. rewrite Hne. cbn.
    destruct (strict_equal (x (store p)) (x (store q))),
      (strict_equal (y (store p)) (y (store q))); reflexivity.
  - intros Hx Hy. rewrite Pos.eqb_refl, Hx, Hy. reflexivity.
Qed.

(** The theorem read at the points of the source: point1 and point2 are
    different objects with equal fields, and point1 has no NaN field. *)
Lemma eqPoint_is_eqPointManualB_witness :
  (1 <> 2)%positive /\
  Eq01Obj.jsnumber_strict_equal (x (Eq01Obj.pointStore 1%positive)) (x (Eq01Obj.pointStore 1%positive)) = true /\
  Eq01Obj.jsnumber_strict_equal (y (Eq01Obj.pointStore 1%positive)) (y (Eq01Obj.pointStore 1%positive)) = true /\
  Eq01.equals (Eq01Obj.eqPoint Eq01Obj.jsnumber Eq01Obj.jsnumber_strict_equal
                 Eq01Obj.pointStore) 1%positive 2%positive =
  Eq01.equals (Eq01Obj.eqPointManual Eq01Obj.jsnumber Eq01Obj.jsnumber_strict_equal
                 Eq01Obj.pointStore) 1%positive 2%positive /\
  Eq01.equals (Eq01Obj.eqPoint Eq01Obj.jsnumber Eq01Obj.jsnumber_strict_equal
                 Eq01Obj.pointStore) 1%positive 1%positive =
  Eq01.equals (Eq01Obj.eqPointManual Eq01Obj.jsnumber Eq01Obj.jsnumber_strict_equal
                 Eq01Obj.pointStore) 1%positive 1%positive.
Proof.
  assert (Hne : (1 <> 2)%positive) by discriminate.
  assert (Hx : Eq01Obj.jsnumber_strict_equal (x (Eq01Obj.pointStore 1%positive))
                 (x (Eq01Obj.pointStore 1%positive)) = true) by reflexivity.
  assert (Hy : Eq01Obj.jsnumber_strict_equal (y (Eq01Obj.pointStore 1%positive))
                 (y (Eq01Obj.pointStore 1%positive)) = true) by reflexivity.
  split; [exact Hne |]. split; [exact Hx |]. split; [exact Hy |]. split.
  - exact (proj1 (proj2 (proj2
             (eqPoint_is_eqPointManualB Eq01Obj.jsnumber Eq01Obj.jsnumber_strict_equal
                Eq01Obj.pointStore 1%positive 2%positive))) Hne).
  - exact (proj2 (proj2 (proj2
             (eqPoint_is_eqPointManualB Eq01Obj.jsnumber Eq01Obj.jsnumber_strict_equal
                Eq01Obj.pointStore 1%positive 1%positive))) Hx Hy).
Defined.

(** C7 (as stated, refuted): a point whose [x] is NaN, compared with
    itself.  Its field [x] is not [===] to itself, so [eqPointManual]
    answers false, while [eqPoint] answers true on the same object:
    [eqPoint.equals] is true although not every field is pairwise equal,
    and it differs from [eqPointManual.equals]. *)
Lemma eqPoint_differs_from_eqPointManual_on_nan :
  Eq01.equals (Eq01Obj.eqPoint Eq01Obj.jsnumber Eq01Obj.jsnumber_strict_equal
                 Eq01Obj.nanStore) 1%positive 1%positive = true /\
  Eq01.equals (Eq01Obj.eqPointManual Eq01Obj.jsnumber Eq01Obj.jsnumber_strict_equal
                 Eq01Obj.nanStore) 1%positive 1%positive = false /\
  Eq01Obj.jsnumber_strict_equal (x (Eq01Obj.nanStore 1%positive)) (x (Eq01Obj.nanStore 1%positive)) = false /\
  ~ (Eq01.equals (Eq01Obj.eqPoint Eq01Obj.jsnumber Eq01Obj.jsnumber_strict_equal
                    Eq01Obj.nanStore) 1%positive 1%positive = true <->
     Eq01Obj.jsnumber_strict_equal (x (Eq01Obj.nanStore 1%positive)) (x (Eq01Obj.nanStore 1%positive)) = true /\
     Eq01Obj.jsnumber_strict_equal (y (Eq01Obj.nanStore 1%positive)) (y (Eq01Obj.nanStore 1%positive)) = true).
Proof.
  repeat split; try reflexivity.
  intros [Hfwd _]. destruct (Hfwd eq_refl) as [Hx _]. discriminate Hx.
Qed.

(** The comparison of the fields alone, on records as values: it is the
    hand-written conjunction, whatever [===] does. *)
Lemma eqPoint_fields_conjunction (num : Type) (strict_equal : num -> num -> bool)
    (p q : Point num) :
  Eq01.equals (Eq01.eqPoint num strict_equal) p q =
  Eq01.equals (Eq01.eqPointManual num strict_equal) p q.
Proof.
  cbn. destruct (strict_equal (x p) (x q)), (strict_equal (y p) (y q)); reflexivity.
Qed.

Example eqPoint_point1_point2 :
  Eq01.equals (Eq01.eqPoint number Z.eqb) Eq01.point1 Eq01.point2 = true.
Proof. reflexivity. Qed.

Example eqPoint_point1_point3 :
  Eq01.equals (Eq01.eqPoint number Z.eqb) Eq01.point1 Eq01.point3 = false.
Proof. reflexivity. Qed.

(** In general the derived struct equality is the conjunction over the
    keys of the field instances. *)
Lemma getStructEq_loop_spec {O : Type} (sh : Shape O)
    (eqs : forall k, Eq01.Eq (field sh k)) (ks : list (key sh)) (a b : O) :
  Eq01.getStructEq_loop sh eqs ks a b = true <->
  Forall (fun k => Eq01.equals (eqs k) (get sh k a) (get sh k b) = true) ks.
Proof.
  induction ks as [|k ks IH]; cbn.
  - split; [constructor | reflexivity].
  - destruct (Eq01.equals (eqs k) (get sh k a) (get sh k b)) eqn:E; cbn.
    + rewrite IH. split.
      * intros H. now constructor.
      * intros H. now inversion H.
    + split; [discriminate |].
      intros H. inversion H; congruence.
Qed.

(** With reflexive field instances the check of reference equality changes
    no answer: the instance on objects is the comparison of the records
    the two references point to. *)
Lemma getStructEq_reference_check_redundant {O : Type}
    (store : Eq01Obj.reference -> O) (sh : Shape O)
    (eqs : forall k, Eq01.Eq (field sh k)) :
  (forall k a, Eq01.equals (eqs k) a a = true) ->
  forall p q : Eq01Obj.reference,
    Eq01.equals (Eq01Obj.getStructEq store sh eqs) p q =
    Eq01.equals (Eq01.getStructEq sh eqs) (store p) (store q).
Proof.
  intros Hrefl p q. cbn. unfold Eq01Obj.same_object.
  destruct (Pos.eqb_spec p q) as [Heq | Hne]; [| reflexivity].
  subst q. cbn. symmetry. apply getStructEq_loop_spec, Forall_forall.
  intros k _. apply Hrefl.
Qed.

(** ** The functor instance of Response *)

(** C9: [functorResponse.map(fa, f)] changes the body only: the result's
    body is [f(fa.body)] and its url, status and headers are those of
    [fa]. *)
Theorem functorResponse_map_frame :
  forall (A B : Type) (fa : Functor06.Response A) (f : A -> B),
    Functor06.body (Functor06.fmap1 Functor06.functorResponse fa f) = f (Functor06.body fa) /\
    Functor06.url (Functor06.fmap1 Functor06.functorResponse fa f) = Functor06.url fa /\
    Functor06.status (Functor06.fmap1 Functor06.functorResponse fa f) = Functor06.status fa /\
    Functor06.headers (Functor06.fmap1 Functor06.functorResponse fa f) = Functor06.headers fa.
Proof. intros A B fa f. repeat split. Qed.

Example functorResponse_map_resp :
  Functor06.fmap1 Functor06.functorResponse Functor06.resp (fun a => a * 2) =
  Functor06.mkResponse "Response" 200 {[ "Authorization" := "Bearer" ]} 1080.
Proof. reflexivity. Qed.

(** ** Minimum and maximum under an order *)

Lemma max_unfold {A : Type} (O : Ord02.Ord A) (a b : A) :
  Ord02.max O a b =
  match Ord02.compare O b a with Ord02.OGt => b | _ => a end.
Proof.
  unfold Ord02.max, Ord02.min, Ord02.getDualOrd, Ord02.fromCompare. cbn.
  now destruct (Ord02.compare O b a).
Qed.

Lemma min_unfold {A : Type} (O : Ord02.Ord A) (a b : A) :
  Ord02.min O a b =
  match Ord02.compare O a b with Ord02.OGt => b | _ => a end.
Proof.
  unfold Ord02.min. now destruct (Ord02.compare O a b).
Qed.




(** Where exchanging the arguments of [compare] negates its result, the
    dual order of the library is the dual order in the words of the
    specification. *)
Lemma getDualOrd_is_negatedDualOrd {A : Type} (O : Ord02.Ord A) (a b : A) :
  Ord02.compare O b a = Ord02.negate (Ord02.compare O a b) ->
  Ord02.compare (Ord02.getDualOrd O) a b = Ord02.compare (Ord02.negatedDualOrd O) a b.
Proof. intros H. exact H. Qed.

(** The examples logged by the source. *)
Example min_ordNumber_2_1 : Ord02.min Ord02.ordNumber 2 1 = 1.
Proof. reflexivity. Qed.

Example getYounger_user1_user2 : Ord02.min Ord02.byAge Ord02.user1 Ord02.user2 = Ord02.user2.
Proof. reflexivity. Qed.

Example getOlder_user1_user2 : Ord02.max Ord02.byAge Ord02.user1 Ord02.user2 = Ord02.user1.
Proof. reflexivity. Qed.

(** ** Total orders *)

Lemma leq_refl {A : Type} (O : Ord02.Ord A) (HO : Ord02.TotalOrder O) (a : A) :
  Ord02.leq O a a.
Proof.
  unfold Ord02.leq.
  assert (E : Ord02.compare O a a = Ord02.OEq) by now apply (Ord02.compare_0_iff O HO).
  rewrite E. cbn. lia.
Qed.

Lemma not_leq_flip {A : Type} (O : Ord02.Ord A) (HO : Ord02.TotalOrder O) (a b : A) :
  Ord02.compare O a b = Ord02.OGt -> Ord02.leq O b a.
Proof.
  intros E. destruct (Ord02.totality O HO a b) as [H | H]; [| exact H].
  unfold Ord02.leq in H. rewrite E in H. cbn in H. lia.
Qed.

Lemma min_spec {A : Type} (O : Ord02.Ord A) (HO : Ord02.TotalOrder O) (a b : A) :
  Ord02.leq O (Ord02.min O a b) a /\ Ord02.leq O (Ord02.min O a b) b /\
  (Ord02.min O a b = a \/ Ord02.min O a b = b).
Proof.
  rewrite min_unfold. destruct (Ord02.compare O a b) eqn:E.
  - repeat split; [now apply leq_refl | | now left].
    unfold Ord02.leq. rewrite E. cbn. lia.
  - repeat split; [now apply leq_refl | | now left].
    unfold Ord02.leq. rewrite E. cbn. lia.
  - repeat split; [now apply not_leq_flip | now apply leq_refl | now right].
Qed.

Lemma max_spec {A : Type} (O : Ord02.Ord A) (HO : Ord02.TotalOrder O) (a b : A) :
  Ord02.leq O a (Ord02.max O a b) /\ Ord02.leq O b (Ord02.max O a b) /\
  (Ord02.max O a b = a \/ Ord02.max O a b = b).
Proof.
  rewrite max_unfold. destruct (Ord02.compare O b a) eqn:E.
  - repeat split; [now apply leq_refl | | now left].
    unfold Ord02.leq. rewrite E. cbn. lia.
  - repeat split; [now apply leq_refl | | now left].
    unfold Ord02.leq. rewrite E. cbn. lia.
  - repeat split; [now apply not_leq_flip | now apply leq_refl | now right].
Qed.

(** A least (greatest) element of a set of values is unique. *)
Lemma least_unique {A : Type} (O : Ord02.Ord A) (HO : Ord02.TotalOrder O)
    (P : A -> Prop) (m m' : A) :
  Ord02.is_least O P m -> Ord02.is_least O P m' -> m = m'.
Proof.
  intros [Hm Hlow] [Hm' Hlow'].
  apply (Ord02.antisymmetry O HO); auto.
Qed.

Lemma greatest_unique {A : Type} (O : Ord02.Ord A) (HO : Ord02.TotalOrder O)
    (P : A -> Prop) (m m' : A) :
  Ord02.is_greatest O P m -> Ord02.is_greatest O P m' -> m = m'.
Proof.
  intros [Hm Hup] [Hm' Hup'].
  apply (Ord02.antisymmetry O HO); auto.
Qed.

Lemma min_least2 {A : Type} (O : Ord02.Ord A) (HO : Ord02.TotalOrder O) (a b : A) :
  Ord02.is_least O (fun v => v = a \/ v = b) (Ord02.min O a b).
Proof.
  destruct (min_spec O HO a b) as (Ha & Hb & Hin).
  split; [exact Hin |].
  intros v [-> | ->]; assumption.
Qed.

Lemma max_greatest2 {A : Type} (O : Ord02.Ord A) (HO : Ord02.TotalOrder O) (a b : A) :
  Ord02.is_greatest O (fun v => v = a \/ v = b) (Ord02.max O a b).
Proof.
  destruct (max_spec O HO a b) as (Ha & Hb & Hin).
  split; [exact Hin |].
  intros v [-> | ->]; assumption.
Qed.

Lemma min_least3_left {A : Type} (O : Ord02.Ord A) (HO : Ord02.TotalOrder O) (a b c : A) :
  Ord02.is_least O (fun v => v = a \/ v = b \/ v = c) (Ord02.min O (Ord02.min O a b) c).
Proof.
  destruct (min_spec O HO a b) as (Ha & Hb & Hin).
  destruct (min_spec O HO (Ord02.min O a b) c) as (Hab & Hc & Hin').
  split.
  - destruct Hin' as [-> | ->]; [destruct Hin as [-> | ->] |]; auto.
  - intros v [-> | [-> | ->]].
    + now apply (Ord02.transitivity O HO _ (Ord02.min O a b)).
    + now apply (Ord02.transitivity O HO _ (Ord02.min O a b)).
    + assumption.
Qed.

Lemma min_least3_right {A : Type} (O : Ord02.Ord A) (HO : Ord02.TotalOrder O) (a b c : A) :
  Ord02.is_least O (fun v => v = a \/ v = b \/ v = c) (Ord02.min O a (Ord02.min O b c)).
Proof.
  destruct (min_spec O HO b c) as (Hb & Hc & Hin).
  destruct (min_spec O HO a (Ord02.min O b c)) as (Ha & Hbc & Hin').
  split.
  - destruct Hin' as [-> | ->]; [| destruct Hin as [-> | ->]]; auto.
  - intros v [-> | [-> | ->]].
    + assumption.
    + now apply (Ord02.transitivity O HO _ (Ord02.min O b c)).
    + now apply (Ord02.transitivity O HO _ (Ord02.min O b c)).
Qed.

Lemma max_greatest3_left {A : Type} (O : Ord02.Ord A) (HO : Ord02.TotalOrder O) (a b c : A) :
  Ord02.is_greatest O (fun v => v = a \/ v = b \/ v = c) (Ord02.max O (Ord02.max O a b) c).
Proof.
  destruct (max_spec O HO a b) as (Ha & Hb & Hin).
  destruct (max_spec O HO (Ord02.max O a b) c) as (Hab & Hc & Hin').
  split.
  - destruct Hin' as [-> | ->]; [destruct Hin as [-> | ->] |]; auto.
  - intros v [-> | [-> | ->]].
    + now apply (Ord02.transitivity O HO _ (Ord02.max O a b)).
    + now apply (Ord02.transitivity O HO _ (Ord02.max O a b)).
    + assumption.
Qed.

Lemma max_greatest3_right {A : Type} (O : Ord02.Ord A) (HO : Ord02.TotalOrder O) (a b c : A) :
  Ord02.is_greatest O (fun v => v = a \/ v = b \/ v = c) (Ord02.max O a (Ord02.max O b c)).
Proof.
  destruct (max_spec O HO b c) as (Hb & Hc & Hin).
  destruct (max_spec O HO a (Ord02.max O b c)) as (Ha & Hbc & Hin').
  split.
  - destruct Hin' as [-> | ->]; [| destruct Hin as [-> | ->]]; auto.
  - intros v [-> | [-> | ->]].
    + assumption.
    + now apply (Ord02.transitivity O HO _ (Ord02.max O b c)).
    + now apply (Ord02.transitivity O HO _ (Ord02.max O b c)).
Qed.

Lemma ordNumberA_total : Ord02.TotalOrder Ord02.ordNumberA.
Proof.
  split; unfold Ord02.leq; cbn.
  - intros a b. destruct (Z.ltb_spec a b), (Z.gtb_spec a b);
      split; intros Hc; try discriminate; try reflexivity; try lia; exfalso; lia.
  - intros a b. destruct (Z.ltb_spec a b), (Z.gtb_spec a b),
      (Z.ltb_spec b a), (Z.gtb_spec b a); cbn; lia.
  - intros a b c. destruct (Z.ltb_spec a b), (Z.gtb_spec a b),
      (Z.ltb_spec b c), (Z.gtb_spec b c), (Z.ltb_spec a c), (Z.gtb_spec a c);
      cbn; lia.
  - intros a b. destruct (Z.ltb_spec a b), (Z.gtb_spec a b),
      (Z.ltb_spec b a), (Z.gtb_spec b a); cbn; lia.
Qed.

Lemma ordNumber_total : Ord02.TotalOrder Ord02.ordNumber.
Proof.
  destruct ordNumberA_total as [H1 H2 H3 H4].
  split; [exact H1 | exact H2 | exact H3 | exact H4].
Qed.

(** C3: for every total order [O] and all [a], [b], [c], the meet and the
    join semigroup derived from [O] are associative, commutative and
    idempotent; meet's combine is one of its two arguments and lies below
    both under [O], join's combine is one of its two arguments and lies
    above both. *)
Theorem meet_join_semilattice :
  forall (A : Type) (O : Ord02.Ord A), Ord02.TotalOrder O ->
  forall a b c : A,
    let meet := Semigroup03.concat (Semigroup03.getMeetSemigroup O) in
    let join := Semigroup03.concat (Semigroup03.getJoinSemigroup O) in
    (meet (meet a b) c = meet a (meet b c) /\ meet a b = meet b a /\ meet a a = a) /\
    (join (join a b) c = join a (join b c) /\ join a b = join b a /\ join a a = a) /\
    (Ord02.leq O (meet a b) a /\ Ord02.leq O (meet a b) b /\ (meet a b = a \/ meet a b = b)) /\
    (Ord02.leq O a (join a b) /\ Ord02.leq O b (join a b) /\ (join a b = a \/ join a b = b)).
Proof.
  intros A O HO a b c. cbn.
  repeat apply conj.
  - apply (least_unique O HO (fun v => v = a \/ v = b \/ v = c)).
    + apply min_least3_left, HO.
    + apply min_least3_right, HO.
  - apply (least_unique O HO (fun v => v = a \/ v = b)).
    + apply min_least2, HO.
    + destruct (min_least2 O HO b a) as [Hin Hlow]. split.
      * tauto.
      * intros v Hv. apply Hlow. tauto.
  - destruct (min_spec O HO a a) as (_ & _ & [H | H]); exact H.
  - apply (greatest_unique O HO (fun v => v = a \/ v = b \/ v = c)).
    + apply max_greatest3_left, HO.
    + apply max_greatest3_right, HO.
  - apply (greatest_unique O HO (fun v => v = a \/ v = b)).
    + apply max_greatest2, HO.
    + destruct (max_greatest2 O HO b a) as [Hin Hup]. split.
      * tauto.
      * intros v Hv. apply Hup. tauto.
  - destruct (max_spec O HO a a) as (_ & _ & [H | H]); exact H.
  - apply (min_spec O HO a b).
  - apply (min_spec O HO a b).
  - apply (min_spec O HO a b).
  - apply (max_spec O HO a b).
  - apply (max_spec O HO a b).
  - apply (max_spec O HO a b).
Qed.

(** The number order of the source is a total order; the theorem read at
    [semigroupMin] and [semigroupMax] on 2, 1 and 7. *)
Lemma meet_join_semilattice_witness :
  Ord02.TotalOrder Ord02.ordNumber /\
  let meet := Semigroup03.concat Semigroup03.semigroupMin in
  let join := Semigroup03.concat Semigroup03.semigroupMax in
  (meet (meet 2 1) 7 = meet 2 (meet 1 7) /\ meet 2 1 = meet 1 2 /\ meet 2 2 = 2) /\
  (join (join 2 1) 7 = join 2 (join 1 7) /\ join 2 1 = join 1 2 /\ join 2 2 = 2) /\
  (Ord02.leq Ord02.ordNumber (meet 2 1) 2 /\ Ord02.leq Ord02.ordNumber (meet 2 1) 1 /\
     (meet 2 1 = 2 \/ meet 2 1 = 1)) /\
  (Ord02.leq Ord02.ordNumber 2 (join 2 1) /\ Ord02.leq Ord02.ordNumber 1 (join 2 1) /\
     (join 2 1 = 2 \/ join 2 1 = 1)).
Proof.
  split.
  - exact ordNumber_total.
  - exact (meet_join_semilattice number Ord02.ordNumber ordNumber_total 2 1 7).
Defined.

Example semigroupMin_2_1 : Semigroup03.concat Semigroup03.semigroupMin 2 1 = 1.
Proof. reflexivity. Qed.

Example semigroupMax_2_1 : Semigroup03.concat Semigroup03.semigroupMax 2 1 = 2.
Proof. reflexivity. Qed.

(** Totality of the order matters: [byAge] compares users by one field
    only, two different users of the same age tie, and the meet derived
    from it is not commutative on them. *)
Lemma byAge_meet_not_commutative :
  Semigroup03.concat (Semigroup03.getMeetSemigroup Ord02.byAge)
    Ord02.user1 (Ord02.mkUser "Mercury" 34) <>
  Semigroup03.concat (Semigroup03.getMeetSemigroup Ord02.byAge)
    (Ord02.mkUser "Mercury" 34) Ord02.user1.
Proof. cbn. discriminate. Qed.

(** ** The array applicative *)

Lemma array_map_length {A B : Type} (arr : list A) (f : A -> B) :
  length (Applicative07.array_map arr f) = length arr.
Proof.
  induction arr as [|a arr IH]; cbn; [reflexivity | now rewrite IH].
Qed.

Lemma flatten_rows_length {A : Type} (rows : list (list A)) (m : nat) :
  Forall (fun row => length row = m) rows ->
  length (Applicative07.flatten rows) = (length rows * m)%nat.
Proof.
  induction 1 as [|row rows Hrow _ IH]; cbn; [reflexivity |].
  rewrite length_app, Hrow, IH. reflexivity.
Qed.

Lemma array_ap_length {A B : Type} (fab : list (A -> B)) (fa : list A) :
  length (Applicative07.ap (Applicative07.apply1 Applicative07.applicativeArray) fab fa) =
  (length fab * length fa)%nat.
Proof.
  cbn. rewrite (flatten_rows_length _ (length fa)).
  - now rewrite array_map_length.
  - induction fab as [|f fab IH]; cbn; constructor.
    + apply array_map_length.
    + exact IH.
Qed.

(** C4: for the array applicative, [ap] applied to [N] functions and [M]
    arguments yields exactly [N * M] elements, and so does [liftA2] built
    from [map] and [ap]; an empty array on either side yields the empty
    array. *)
Theorem array_ap_cartesian_size :
  forall (A B : Type) (fab : list (A -> B)) (fa : list A),
    let F := Applicative07.apply1 Applicative07.applicativeArray in
    length (Applicative07.ap F fab fa) = (length fab * length fa)%nat /\
    (forall (C : Type) (g : C -> A -> B) (fc : list C),
       length (Applicative07.liftA2 F g fc fa) = (length fc * length fa)%nat) /\
    Applicative07.ap F (@nil (A -> B)) fa = [] /\
    Applicative07.ap F fab (@nil A) = [] /\
    (forall (C : Type) (g : C -> A -> B),
       Applicative07.liftA2 F g [] fa = [] /\
       forall fc : list C, Applicative07.liftA2 F g fc (@nil A) = []).
Proof.
  intros A B fab fa F.
  assert (Hnil : forall (X Y : Type) (fs : list (X -> Y)),
             Applicative07.ap F fs (@nil X) = []).
  { intros X Y fs. apply length_zero_iff_nil.
    unfold F. rewrite array_ap_length. cbn. lia. }
  repeat apply conj.
  - apply array_ap_length.
  - intros C g fc. unfold Applicative07.liftA2, F.
    rewrite array_ap_length. cbn. now rewrite array_map_length.
  - reflexivity.
  - apply Hnil.
  - intros C g. split; [reflexivity |].
    intros fc. unfold Applicative07.liftA2. apply Hnil.
Qed.

Example applicativeArray_ap_logged :
  Applicative07.ap (Applicative07.apply1 Applicative07.applicativeArray)
    [(fun st : string => Z.of_nat (String.length st));
     (fun st : string => Z.of_nat (String.length st) + 1)]
    ["hello"%string; "world!"%string] = [5; 6; 6; 7].
Proof. reflexivity. Qed.

(** ** The optional applicative and the semigroup derived from it *)

(** The semigroup of [Option<A>] obtained from a semigroup of [A] is the
    semigroup's [concat] lifted through the optional applicative. *)
Lemma getApplySemigroup_is_liftA2 {A : Type} (S : Semigroup03.Semigroup A)
    (a b : option A) :
  Semigroup03.concat (Semigroup03.getApplySemigroup S) a b =
  Applicative07.liftA2 (Applicative07.apply1 Applicative07.applicativeOption)
    (Semigroup03.concat S) a b.
Proof. destruct a, b; reflexivity. Qed.

(** C5: for [ap] of the optional applicative and for the semigroup of
    [Option<A>] derived by [getApplySemigroup], the result is none iff at
    least one operand is none; when both operands are present the result
    is some of the applied, respectively combined, value. *)
Theorem option_result_absent_iff_operand_absent :
  forall (A B : Type) (S : Semigroup03.Semigroup A)
         (fab : option (A -> B)) (fa a b : option A),
    let F := Applicative07.apply1 Applicative07.applicativeOption in
    (Applicative07.ap F fab fa = None <-> fab = None \/ fa = None) /\
    (forall (f : A -> B) (v : A), Applicative07.ap F (Some f) (Some v) = Some (f v)) /\
    (Semigroup03.concat (Semigroup03.getApplySemigroup S) a b = None <->
       a = None \/ b = None) /\
    (forall va vb : A,
       Semigroup03.concat (Semigroup03.getApplySemigroup S) (Some va) (Some vb) =
       Some (Semigroup03.concat S va vb)).
Proof.
  intros A B S fab fa a b F.
  repeat apply conj.
  - destruct fab as [f|], fa as [v|]; cbn; intuition discriminate.
  - intros [H | H]; subst; [reflexivity |].
    destruct fab; reflexivity.
  - reflexivity.
  - destruct a as [va|], b as [vb|]; cbn; intuition discriminate.
  - intros [H | H]; subst; [reflexivity |].
    destruct a; reflexivity.
  - reflexivity.
Qed.

Example S_concat_some_none :
  Semigroup03.concat Semigroup03.S (Some 1) None = None.
Proof. reflexivity. Qed.

Example S_concat_some_some :
  Semigroup03.concat Semigroup03.S (Some 1) (Some 2) = Some 3.
Proof. reflexivity. Qed.

(** ** Folding *)

Lemma reduce_is_fold_left {A B : Type} (f : B -> A -> B) (arr : list A) (init : B) :
  Semigroup03.reduce f init arr = List.fold_left f arr init.
Proof.
  revert init. induction arr as [|v arr IH]; intros init; cbn.
  - reflexivity.
  - apply IH.
Qed.

(** The reduction runs from the left: the last element is absorbed last. *)
Lemma reduce_snoc {A B : Type} (f : B -> A -> B) (arr : list A) (v : A) (init : B) :
  Semigroup03.reduce f init (arr ++ [v]) = f (Semigroup03.reduce f init arr) v.
Proof.
  revert init. induction arr as [|w arr IH]; intros init; cbn.
  - reflexivity.
  - apply IH.
Qed.

(** C6: for every monoid [M] and every list, the fold of the monoid, which
    takes no initial value, is the fold of the underlying semigroup started
    from [M.empty], and both are the left-to-right reduction of the list by
    [M.concat] from [M.empty]; folding [1, 2, 3, 4] under addition gives
    10. *)
Theorem monoid_fold_is_semigroup_fold_from_empty :
  (forall (A : Type) (M : Monoid04.Monoid A) (xs : list A),
     Monoid04.fold M xs =
       Semigroup03.fold (Monoid04.semigroup M) (Monoid04.empty M) xs /\
     Monoid04.fold M xs =
       Monoid04.left_to_right_reduction (Monoid04.concat M) (Monoid04.empty M) xs /\
     Semigroup03.fold (Monoid04.semigroup M) (Monoid04.empty M) xs =
       Monoid04.left_to_right_reduction (Monoid04.concat M) (Monoid04.empty M) xs) /\
  Monoid04.fold Monoid04.monoidSum [1; 2; 3; 4] = 10 /\
  Semigroup03.sum 0 [1; 2; 3; 4] = 10.
Proof.
  split; [| split; reflexivity].
  intros A M xs.
  unfold Monoid04.fold, Semigroup03.fold, Monoid04.left_to_right_reduction,
    Monoid04.concat.
  rewrite reduce_is_fold_left. repeat split.
Qed.

Example fold_monoidProduct : Monoid04.fold Monoid04.monoidProduct [1; 2; 3; 4] = 24.
Proof. reflexivity. Qed.

Example fold_monoidString :
  Monoid04.fold Monoid04.monoidString ["a"; "b"; "c"]%string = "abc"%string.
Proof. reflexivity. Qed.

Example fold_monoidAll : Monoid04.fold Monoid04.monoidAll [true; false; true] = false.
Proof. reflexivity. Qed.

Example product_1234 : Semigroup03.product 1 [1; 2; 3; 4] = 24.
Proof. reflexivity. Qed.

(** * Further properties of the sources *)

(** ** String concatenation *)

Lemma append_empty_r (a : string) : String.append a EmptyString = a.
Proof.
  induction a as [|ch a IH].
  - reflexivity.
  - change (String ch (String.append a EmptyString) = String ch a).
    now rewrite IH.
Qed.

Lemma append_length (a b : string) :
  String.length (String.append a b) = (String.length a + String.length b)%nat.
Proof.
  induction a as [|ch a IH].
  - reflexivity.
  - change (S (String.length (String.append a b)) =
            S (String.length a + String.length b)).
    now rewrite IH.
Qed.

(** X1: both properties of the monoid test, right identity
    [M.concat(x, M.empty) === x] and left identity
    [M.concat(M.empty, x) === x], answer true on every string: the string
    monoid under concatenation with the empty string passes on every
    generated input. *)
Theorem monoid_spec_identity_properties_hold :
  forall x : string,
    MonoidSpec.rightIdentity x = true /\ MonoidSpec.leftIdentity x = true.
Proof.
  intros x. unfold MonoidSpec.rightIdentity, MonoidSpec.leftIdentity,
    Monoid04.concat, MonoidSpec.M, MonoidSpec.S. cbn [Monoid04.semigroup
    Monoid04.empty Semigroup03.concat].
  rewrite append_empty_r. split.
  - apply String.eqb_refl.
  - change (String.append EmptyString x) with x. apply String.eqb_refl.
Qed.

(** X2: the separator semigroup [concat(x, y) = x + ' ' + y] has no empty
    value: whatever candidate [e] is taken, [concat(x, e)] and
    [concat(e, x)] differ from [x] for every string [x]. *)
Theorem semigroupSpace_has_no_empty :
  forall e x : string,
    Semigroup03.concat Monoid04.semigroupSpace x e <> x /\
    Semigroup03.concat Monoid04.semigroupSpace e x <> x.
Proof.
  intros e x. unfold Monoid04.semigroupSpace, Semigroup03.concat.
  split; intros Heq; apply (f_equal String.length) in Heq;
    rewrite !append_length in Heq; cbn in Heq; lia.
Qed.

(** X3: the string monoid under concatenation and the two boolean monoids,
    under conjunction with [true] and under disjunction with [false],
    satisfy the monoid laws of the source: associativity, right identity
    and left identity. *)
Theorem string_and_boolean_monoids_lawful :
  Monoid04.LawfulMonoid Monoid04.monoidString /\
  Monoid04.LawfulMonoid Monoid04.monoidAll /\
  Monoid04.LawfulMonoid Monoid04.monoidAny.
Proof.
  split; [| split]; split; unfold Monoid04.concat; cbn [Monoid04.semigroup
    Monoid04.empty Monoid04.monoidString Monoid04.monoidAll Monoid04.monoidAny
    Semigroup03.concat].
  - intros a b c. apply append_assoc.
  - intros a. apply append_empty_r.
  - intros a. reflexivity.
  - intros a b c. now destruct a, b, c.
  - intros a. now destruct a.
  - intros a. reflexivity.
  - intros a b c. now destruct a, b, c.
  - intros a. now destruct a.
  - intros a. reflexivity.
Qed.

(** ** The trivial semigroups and the free semigroup *)

Lemma last_cons_default {A : Type} (arr : list A) (v d d' : A) :
  List.last (v :: arr) d = List.last (v :: arr) d'.
Proof.
  revert v. induction arr as [|w arr IH]; intros v; [reflexivity |].
  change (List.last (w :: arr) d = List.last (w :: arr) d'). apply IH.
Qed.

(** X4: the two semigroups that exist for every type, "always the first
    argument" and "always the second argument", are associative; folding
    with the first returns the initial value whatever the array holds, and
    folding with the second returns the last element of the array, or the
    initial value when the array is empty. *)
Theorem first_last_semigroups :
  forall (A : Type) (a : A) (arr : list A),
    Semigroup03.Associative (@Semigroup03.getFirstSemigroup A) /\
    Semigroup03.Associative (@Semigroup03.getLastSemigroup A) /\
    Semigroup03.fold Semigroup03.getFirstSemigroup a arr = a /\
    Semigroup03.fold Semigroup03.getLastSemigroup a arr = List.last arr a.
Proof.
  intros A a arr. repeat apply conj.
  - intros u v w. reflexivity.
  - intros u v w. reflexivity.
  - unfold Semigroup03.fold. revert a.
    induction arr as [|v arr IH]; intros a; cbn; [reflexivity | apply IH].
  - unfold Semigroup03.fold. revert a.
    induction arr as [|v arr IH]; intros a; [reflexivity |].
    cbn [Semigroup03.reduce Semigroup03.concat Semigroup03.getLastSemigroup].
    rewrite IH. destruct arr as [|w arr]; [reflexivity |].
    change (List.last (w :: arr) v = List.last (w :: arr) a).
    apply last_cons_default.
Qed.

(** X5: the array semigroup is associative, and it is the free semigroup:
    mapping every element to its singleton array with [of] and folding the
    singletons with the array semigroup gives the elements back, in order,
    after the initial array. *)
Theorem array_semigroup_free :
  forall (A : Type) (init xs : list A),
    Semigroup03.Associative (@Semigroup03.getArraySemigroup A) /\
    Semigroup03.fold Semigroup03.getArraySemigroup init
      (Applicative07.array_map xs Semigroup03.of_) = init ++ xs /\
    Semigroup03.fold Semigroup03.getArraySemigroup []
      (Applicative07.array_map xs Semigroup03.of_) = xs.
Proof.
  intros A init xs.
  assert (H : forall i : list A,
             Semigroup03.fold Semigroup03.getArraySemigroup i
               (Applicative07.array_map xs Semigroup03.of_) = i ++ xs).
  { unfold Semigroup03.fold. induction xs as [|v xs IH]; intros i; cbn.
    - now rewrite app_nil_r.
    - cbn in IH. rewrite IH. unfold Semigroup03.of_.
      now rewrite <- app_assoc. }
  repeat apply conj.
  - intros u v w. cbn. now rewrite <- app_assoc.
  - apply H.
  - apply (H []).
Qed.

(** ** Membership under an equality instance *)

Lemma array_some_app {A : Type} (xs ys : list A) (p : A -> bool) :
  Eq01.array_some (xs ++ ys) p = Eq01.array_some xs p || Eq01.array_some ys p.
Proof.
  induction xs as [|v xs IH]; cbn; [reflexivity |].
  destruct (p v); [reflexivity | exact IH].
Qed.

Lemma array_some_true_iff {A : Type} (xs : list A) (p : A -> bool) :
  Eq01.array_some xs p = true <-> exists item, In item xs /\ p item = true.
Proof.
  induction xs as [|v xs IH]; cbn.
  - split; [discriminate | intros (item & [] & _)].
  - destruct (p v) eqn:E.
    + split; [| reflexivity]. intros _. exists v. auto.
    + rewrite IH. split.
      * intros (item & Hin & Hp). exists item. auto.
      * intros (item & [-> | Hin] & Hp); [congruence |]. exists item. auto.
Qed.

(** X6: [elem(E)(a, as)] is true exactly when some element [item] of the
    array has [E.equals(item, a)]; it is false on the empty array, and on a
    concatenation it is the disjunction of the answers on the two parts. *)
Theorem elem_characterisation :
  forall (A : Type) (E : Eq01.Eq A) (a : A) (xs ys : list A),
    Eq01.elem E a [] = false /\
    Eq01.elem E a (xs ++ ys) = Eq01.elem E a xs || Eq01.elem E a ys /\
    (Eq01.elem E a xs = true <->
       exists item, In item xs /\ Eq01.equals E item a = true).
Proof.
  intros A E a xs ys. unfold Eq01.elem. repeat apply conj.
  - reflexivity.
  - apply array_some_app.
  - apply array_some_true_iff.
  - apply array_some_true_iff.
Qed.

Example elem_eqNumber_1 : Eq01.elem (Eq01.eqNumber number Z.eqb) 1 [1; 2; 3] = true.
Proof. reflexivity. Qed.

Example elem_eqNumber_4 : Eq01.elem (Eq01.eqNumber number Z.eqb) 4 [1; 2; 3] = false.
Proof. reflexivity. Qed.

(** ** Derived equality instances keep the laws *)

Lemma eqNumber_Z_lawful : Eq01.LawfulEq (Eq01.eqNumber number Z.eqb).
Proof.
  split; cbn.
  - intros a. apply Z.eqb_refl.
  - intros a b. apply Z.eqb_sym.
  - intros a b c Hab Hbc. apply Z.eqb_eq in Hab, Hbc. apply Z.eqb_eq. congruence.
Qed.

(** X7: an equality instance derived with [contramap] from a lawful
    instance is lawful: reflexive, symmetric and transitive, whatever the
    projection is. *)
Theorem contramap_eq_lawful :
  forall (A B : Type) (f : B -> A) (E : Eq01.Eq A),
    Eq01.LawfulEq E -> Eq01.LawfulEq (Eq01.contramap f E).
Proof.
  intros A B f E [Hr Hs Ht]. split; cbn.
  - intros a. apply Hr.
  - intros a b. apply Hs.
  - intros a b c. apply Ht.
Qed.

Lemma contramap_eq_lawful_witness :
  Eq01.LawfulEq (Eq01.eqNumber number Z.eqb) /\ Eq01.LawfulEq Eq01.eqUser.
Proof.
  split.
  - exact eqNumber_Z_lawful.
  - exact (contramap_eq_lawful number Eq01.User Eq01.userId
             (Eq01.eqNumber number Z.eqb) eqNumber_Z_lawful).
Defined.

Example eqUser_user1_user2 : Eq01.equals Eq01.eqUser Eq01.user1 Eq01.user2 = false.
Proof. reflexivity. Qed.

Example eqUser_user1_user3 : Eq01.equals Eq01.eqUser Eq01.user1 Eq01.user3 = true.
Proof. reflexivity. Qed.

(** X8: the struct equality derived by [getStructEq] from lawful field
    instances is lawful: reflexive, symmetric and transitive. *)
Theorem getStructEq_lawful :
  forall (O : Type) (sh : Shape O) (eqs : forall k, Eq01.Eq (field sh k)),
    (forall k, Eq01.LawfulEq (eqs k)) -> Eq01.LawfulEq (Eq01.getStructEq sh eqs).
Proof.
  intros O sh eqs Hlaw. split; cbn.
  - intros a. apply getStructEq_loop_spec, Forall_forall.
    intros k _. apply (Eq01.eq_reflexivity _ (Hlaw k)).
  - intros a b. generalize (keys sh). intros ks.
    induction ks as [|k ks IH]; cbn; [reflexivity |].
    rewrite (Eq01.eq_symmetry _ (Hlaw k) (get sh k a) (get sh k b)), IH.
    reflexivity.
  - intros a b c Hab Hbc.
    apply getStructEq_loop_spec in Hab, Hbc. apply getStructEq_loop_spec.
    rewrite Forall_forall in *. intros k Hk.
    apply (Eq01.eq_transitivity _ (Hlaw k) _ (get sh k b)); auto.
Qed.

Lemma getStructEq_lawful_witness :
  (forall k : PointKey,
     Eq01.LawfulEq (match k with
                    | Kx => Eq01.eqNumber number Z.eqb
                    | Ky => Eq01.eqNumber number Z.eqb
                    end)) /\
  Eq01.LawfulEq (Eq01.eqPoint number Z.eqb).
Proof.
  assert (H : forall k : PointKey,
             Eq01.LawfulEq (match k with
                            | Kx => Eq01.eqNumber number Z.eqb
                            | Ky => Eq01.eqNumber number Z.eqb
                            end)).
  { intros k. destruct k; exact eqNumber_Z_lawful. }
  split.
  - exact H.
  - exact (getStructEq_lawful (Point number) (pointShape number) _ H).
Defined.

(** ** Derived struct semigroups and monoids keep the laws *)

Lemma pointShape_lawful (num : Type) : LawfulShape (pointShape num).
Proof.
  split.
  - intros f k. now destruct k.
  - intros a. now destruct a.
  - intros f g Hfg. cbn. now rewrite (Hfg Kx), (Hfg Ky).
Qed.

(** X9: the struct semigroup derived by [getStructSemigroup] from
    associative field semigroups is associative. *)
Theorem getStructSemigroup_associative :
  forall (O : Type) (sh : Shape O)
         (semigroups : forall k, Semigroup03.Semigroup (field sh k)),
    LawfulShape sh ->
    (forall k, Semigroup03.Associative (semigroups k)) ->
    Semigroup03.Associative (Semigroup03.getStructSemigroup sh semigroups).
Proof.
  intros O sh semigroups Hsh Hassoc a b c. cbn.
  apply (build_ext sh Hsh). intros k.
  rewrite !(get_build sh Hsh). apply Hassoc.
Qed.

Lemma getStructSemigroup_associative_witness :
  LawfulShape (pointShape string) /\
  (forall k : PointKey,
     Semigroup03.Associative
       (match k with
        | Kx => Semigroup03.semigroupString
        | Ky => Semigroup03.semigroupString
        end)) /\
  Semigroup03.Associative
    (Semigroup03.getStructSemigroup (pointShape string)
       (fun k => match k with
                 | Kx => Semigroup03.semigroupString
                 | Ky => Semigroup03.semigroupString
                 end)).
Proof.
  assert (H : forall k : PointKey,
             Semigroup03.Associative
               (match k with
                | Kx => Semigroup03.semigroupString
                | Ky => Semigroup03.semigroupString
                end)).
  { intros k a b c. destruct k; apply append_assoc. }
  split; [exact (pointShape_lawful string) | split; [exact H |]].
  exact (getStructSemigroup_associative (Point string) (pointShape string) _
           (pointShape_lawful string) H).
Defined.

(** X10: the struct monoid derived by [getStructMonoid] from lawful field
    monoids is lawful: its [concat] is associative and the record of the
    fields' [empty] values is a right and a left identity. *)
Theorem getStructMonoid_lawful :
  forall (O : Type) (sh : Shape O)
         (monoids : forall k, Monoid04.Monoid (field sh k)),
    LawfulShape sh ->
    (forall k, Monoid04.LawfulMonoid (monoids k)) ->
    Monoid04.LawfulMonoid (Monoid04.getStructMonoid sh monoids).
Proof.
  intros O sh monoids Hsh Hlaw. split; unfold Monoid04.concat; cbn.
  - intros a b c. apply (build_ext sh Hsh). intros k.
    rewrite !(get_build sh Hsh).
    apply (Monoid04.associativity _ (Hlaw k)).
  - intros a. etransitivity; [| apply (build_get sh Hsh a)].
    apply (build_ext sh Hsh). intros k.
    rewrite (get_build sh Hsh).
    apply (Monoid04.right_identity _ (Hlaw k)).
  - intros a. etransitivity; [| apply (build_get sh Hsh a)].
    apply (build_ext sh Hsh). intros k.
    rewrite (get_build sh Hsh).
    apply (Monoid04.left_identity _ (Hlaw k)).
Qed.

Lemma monoidAll_lawful : Monoid04.LawfulMonoid Monoid04.monoidAll.
Proof.
  split; unfold Monoid04.concat; cbn.
  - intros a b c. now destruct a, b, c.
  - intros a. now destruct a.
  - intros a. reflexivity.
Qed.

Lemma monoidString_lawful : Monoid04.LawfulMonoid Monoid04.monoidString.
Proof.
  split; unfold Monoid04.concat; cbn [Monoid04.semigroup Monoid04.empty
    Monoid04.monoidString Semigroup03.concat].
  - intros a b c. apply append_assoc.
  - intros a. apply append_empty_r.
  - intros a. reflexivity.
Qed.

Lemma getStructMonoid_lawful_witness :
  LawfulShape (pointShape bool) /\
  (forall k : PointKey,
     Monoid04.LawfulMonoid
       (match k with Kx => Monoid04.monoidAll | Ky => Monoid04.monoidAll end)) /\
  Monoid04.LawfulMonoid
    (Monoid04.getStructMonoid (pointShape bool)
       (fun k => match k with Kx => Monoid04.monoidAll | Ky => Monoid04.monoidAll end)).
Proof.
  assert (H : forall k : PointKey,
             Monoid04.LawfulMonoid
               (match k with Kx => Monoid04.monoidAll | Ky => Monoid04.monoidAll end)).
  { intros k. destruct k; exact monoidAll_lawful. }
  split; [exact (pointShape_lawful bool) | split; [exact H |]].
  exact (getStructMonoid_lawful (Point bool) (pointShape bool) _
           (pointShape_lawful bool) H).
Defined.

(** ** Functor laws *)

Lemma array_map_id {A : Type} (arr : list A) :
  Applicative07.array_map arr (fun a => a) = arr.
Proof.
  induction arr as [|a arr IH]; cbn; [reflexivity | now rewrite IH].
Qed.

Lemma array_map_compose {A B C : Type} (arr : list A) (f : A -> B) (g : B -> C) :
  Applicative07.array_map arr (fun a => g (f a)) =
  Applicative07.array_map (Applicative07.array_map arr f) g.
Proof.
  induction arr as [|a arr IH]; cbn; [reflexivity | now rewrite IH].
Qed.

Lemma array_map_app {A B : Type} (xs ys : list A) (f : A -> B) :
  Applicative07.array_map (xs ++ ys) f =
  Applicative07.array_map xs f ++ Applicative07.array_map ys f.
Proof.
  induction xs as [|a xs IH]; cbn; [reflexivity | now rewrite IH].
Qed.

(** X11: [liftArr] satisfies the functor laws of the source: lifting the
    identity gives the identity on arrays, and lifting a composition is the
    composition of the lifted functions; the lifted function keeps the
    length of the array and commutes with concatenation. *)
Theorem liftArr_functor_laws :
  forall (A B C : Type) (f : A -> B) (g : B -> C) (fa fa' : list A),
    Lift06.liftArr (fun a : A => a) fa = fa /\
    Lift06.liftArr (fun a => g (f a)) fa = Lift06.liftArr g (Lift06.liftArr f fa) /\
    length (Lift06.liftArr f fa) = length fa /\
    Lift06.liftArr f (fa ++ fa') = Lift06.liftArr f fa ++ Lift06.liftArr f fa'.
Proof.
  intros A B C f g fa fa'. unfold Lift06.liftArr. repeat apply conj.
  - apply array_map_id.
  - apply array_map_compose.
  - apply array_map_length.
  - apply array_map_app.
Qed.

(** X12: [liftOpt] satisfies the functor laws of the source (identity and
    composition), and the lifted function answers none exactly on none: it
    never turns a present value into an absent one or the reverse. *)
Theorem liftOpt_functor_laws :
  forall (A B C : Type) (f : A -> B) (g : B -> C) (fa : option A),
    Lift06.liftOpt (fun a : A => a) fa = fa /\
    Lift06.liftOpt (fun a => g (f a)) fa = Lift06.liftOpt g (Lift06.liftOpt f fa) /\
    (Lift06.liftOpt f fa = None <-> fa = None) /\
    Lift06.liftOpt f fa =
      Applicative07.map (Applicative07.apply1 Applicative07.applicativeOption) fa f.
Proof.
  intros A B C f g fa. destruct fa as [a|]; cbn; repeat apply conj;
    try reflexivity; try discriminate; auto.
Qed.

(** X13: the functor instance of [Response] satisfies the functor laws of
    the source: mapping the identity returns the response unchanged, and
    mapping a composition is mapping the first function and then the
    second. *)
Theorem functorResponse_functor_laws :
  forall (A B C : Type) (f : A -> B) (g : B -> C) (fa : Functor06.Response A),
    Functor06.fmap1 Functor06.functorResponse fa (fun a => a) = fa /\
    Functor06.fmap1 Functor06.functorResponse fa (fun a => g (f a)) =
    Functor06.fmap1 Functor06.functorResponse
      (Functor06.fmap1 Functor06.functorResponse fa f) g.
Proof.
  intros A B C f g fa. destruct fa as [u s h b]. split; reflexivity.
Qed.

(** ** Applicative laws *)

(** X14: the optional applicative satisfies the applicative laws:
    identity, homomorphism, interchange and composition, and its [map] is
    [ap] of the lifted function. *)
Theorem applicativeOption_laws :
  forall (A B C : Type) (f : A -> B) (a : A) (fa : option A)
         (fab : option (A -> B)) (fbc : option (B -> C)),
    let F := Applicative07.apply1 Applicative07.applicativeOption in
    let pure := fun X : Type => @Applicative07.of_ option Applicative07.applicativeOption X in
    Applicative07.ap F (pure _ (fun v : A => v)) fa = fa /\
    Applicative07.ap F (pure _ f) (pure _ a) = pure _ (f a) /\
    Applicative07.ap F fab (pure _ a) = Applicative07.ap F (pure _ (fun h : A -> B => h a)) fab /\
    Applicative07.ap F
      (Applicative07.ap F
         (Applicative07.ap F (pure _ (fun (h : B -> C) (k : A -> B) (v : A) => h (k v))) fbc)
         fab) fa =
    Applicative07.ap F fbc (Applicative07.ap F fab fa) /\
    Applicative07.map F fa f = Applicative07.ap F (pure _ f) fa.
Proof.
  intros A B C f a fa fab fbc F pure.
  destruct fa, fab, fbc; repeat apply conj; reflexivity.
Qed.

Lemma flatten_app {A : Type} (xs ys : list (list A)) :
  Applicative07.flatten (xs ++ ys) = Applicative07.flatten xs ++ Applicative07.flatten ys.
Proof.
  induction xs as [|row xs IH]; cbn; [reflexivity |].
  now rewrite IH, app_assoc.
Qed.

Lemma array_ap_cons {A B : Type} (f : A -> B) (fab : list (A -> B)) (fa : list A) :
  Applicative07.ap (Applicative07.apply1 Applicative07.applicativeArray) (f :: fab) fa =
  Applicative07.array_map fa f ++
  Applicative07.ap (Applicative07.apply1 Applicative07.applicativeArray) fab fa.
Proof. reflexivity. Qed.

Lemma array_ap_app {A B : Type} (fs gs : list (A -> B)) (fa : list A) :
  Applicative07.ap (Applicative07.apply1 Applicative07.applicativeArray) (fs ++ gs) fa =
  Applicative07.ap (Applicative07.apply1 Applicative07.applicativeArray) fs fa ++
  Applicative07.ap (Applicative07.apply1 Applicative07.applicativeArray) gs fa.
Proof.
  cbn. now rewrite array_map_app, flatten_app.
Qed.

Lemma array_ap_map_compose {A B C : Type} (h : B -> C) (fab : list (A -> B)) (fa : list A) :
  Applicative07.ap (Applicative07.apply1 Applicative07.applicativeArray)
    (Applicative07.array_map fab (fun (k : A -> B) (v : A) => h (k v))) fa =
  Applicative07.array_map
    (Applicative07.ap (Applicative07.apply1 Applicative07.applicativeArray) fab fa) h.
Proof.
  induction fab as [|k fab IH].
  - reflexivity.
  - change (Applicative07.array_map (k :: fab) (fun (k0 : A -> B) (v : A) => h (k0 v)))
      with ((fun v : A => h (k v)) ::
            Applicative07.array_map fab (fun (k0 : A -> B) (v : A) => h (k0 v))).
    rewrite !array_ap_cons, IH, array_map_app, <- array_map_compose.
    reflexivity.
Qed.

(** X15: the array applicative satisfies the applicative laws: identity,
    homomorphism, interchange and composition; its [map] is [ap] of the
    lifted function, and [ap] distributes over a concatenation of the
    array of functions, so the results come function by function. *)
Theorem applicativeArray_laws :
  forall (A B C : Type) (f : A -> B) (a : A) (fa : list A)
         (fab fab' : list (A -> B)) (fbc : list (B -> C)),
    let F := Applicative07.apply1 Applicative07.applicativeArray in
    let pure := fun X : Type => @Applicative07.of_ list Applicative07.applicativeArray X in
    Applicative07.ap F (pure _ (fun v : A => v)) fa = fa /\
    Applicative07.ap F (pure _ f) (pure _ a) = pure _ (f a) /\
    Applicative07.ap F fab (pure _ a) = Applicative07.ap F (pure _ (fun h : A -> B => h a)) fab /\
    Applicative07.ap F
      (Applicative07.ap F
         (Applicative07.ap F (pure _ (fun (h : B -> C) (k : A -> B) (v : A) => h (k v))) fbc)
         fab) fa =
    Applicative07.ap F fbc (Applicative07.ap F fab fa) /\
    Applicative07.map F fa f = Applicative07.ap F (pure _ f) fa /\
    Applicative07.ap F (fab ++ fab') fa =
      Applicative07.ap F fab fa ++ Applicative07.ap F fab' fa.
Proof.
  intros A B C f a fa fab fab' fbc F pure.
  assert (Hpure : forall (X Y : Type) (h : X -> Y) (xs : list X),
             Applicative07.ap F (pure _ h) xs = Applicative07.array_map xs h).
  { intros X Y h xs. cbn. apply app_nil_r. }
  repeat apply conj.
  - rewrite Hpure. apply array_map_id.
  - reflexivity.
  - rewrite Hpure. clear. induction fab as [|h fab IH]; [reflexivity |].
    unfold F in *. rewrite array_ap_cons, IH. reflexivity.
  - rewrite Hpure. clear. induction fbc as [|h fbc IH]; [reflexivity |].
    unfold F in *.
    change (Applicative07.array_map (h :: fbc)
              (fun (h0 : B -> C) (k : A -> B) (v : A) => h0 (k v)))
      with ((fun (k : A -> B) (v : A) => h (k v)) ::
            Applicative07.array_map fbc
              (fun (h0 : B -> C) (k : A -> B) (v : A) => h0 (k v))).
    rewrite !array_ap_cons, array_ap_app, IH, array_ap_map_compose.
    reflexivity.
  - rewrite Hpure. reflexivity.
  - apply array_ap_app.
Qed.

(** X16: over arrays, [liftA2(g)(fb)(fc)] holds [g(b)(c)] for every [b] of
    the first array and every [c] of the second, the elements of the first
    array varying slowest; a value is in the result exactly when it is
    [g(b)(c)] for some [b] in the first and some [c] in the second array. *)
Theorem liftA2_array_cartesian :
  forall (B C D : Type) (g : B -> C -> D) (fb : list B) (fc : list C) (d : D),
    let F := Applicative07.apply1 Applicative07.applicativeArray in
    Applicative07.liftA2 F g fb fc =
      List.flat_map (fun b => List.map (g b) fc) fb /\
    (In d (Applicative07.liftA2 F g fb fc) <->
       exists b c, In b fb /\ In c fc /\ d = g b c).
Proof.
  intros B C D g fb fc d F.
  assert (Hmap : forall (X Y : Type) (h : X -> Y) (xs : list X),
             Applicative07.array_map xs h = List.map h xs).
  { intros X Y h xs. induction xs as [|v xs IH]; cbn; [reflexivity | now rewrite IH]. }
  assert (Heq : Applicative07.liftA2 F g fb fc =
                List.flat_map (fun b => List.map (g b) fc) fb).
  { unfold Applicative07.liftA2, F.
    induction fb as [|b fb IH]; [reflexivity |].
    change (Applicative07.map (Applicative07.apply1 Applicative07.applicativeArray)
              (b :: fb) g)
      with (g b :: Applicative07.map
                     (Applicative07.apply1 Applicative07.applicativeArray) fb g).
    rewrite array_ap_cons, IH, Hmap. reflexivity. }
  split; [exact Heq |].
  rewrite Heq, in_flat_map. split.
  - intros (b & Hb & Hd). apply in_map_iff in Hd as (c & <- & Hc).
    exists b, c. auto.
  - intros (b & c & Hb & Hc & ->). exists b. split; [exact Hb |].
    apply in_map_iff. exists c. auto.
Qed.

Example liftA2_array_example :
  Applicative07.liftA2 (Applicative07.apply1 Applicative07.applicativeArray)
    (fun b c : number => b * 10 + c) [1; 2] [3; 4; 5] = [13; 14; 15; 23; 24; 25].
Proof. reflexivity. Qed.

(** ** Folding, continued *)

Lemma reduce_app {A B : Type} (f : B -> A -> B) (xs ys : list A) (init : B) :
  Semigroup03.reduce f init (xs ++ ys) =
  Semigroup03.reduce f (Semigroup03.reduce f init xs) ys.
Proof.
  revert init. induction xs as [|v xs IH]; intros init; cbn; [reflexivity | apply IH].
Qed.

(** X17: folding the empty array returns the initial value (the monoid's
    [empty] for the monoid fold), and folding a concatenation is folding
    the second array starting from the fold of the first: a fold can be
    resumed where an earlier one stopped. *)
Theorem fold_empty_and_append :
  forall (A : Type) (S : Semigroup03.Semigroup A) (M : Monoid04.Monoid A)
         (a : A) (xs ys : list A),
    Semigroup03.fold S a [] = a /\
    Monoid04.fold M [] = Monoid04.empty M /\
    Semigroup03.fold S a (xs ++ ys) = Semigroup03.fold S (Semigroup03.fold S a xs) ys /\
    Monoid04.fold M (xs ++ ys) =
      Semigroup03.fold (Monoid04.semigroup M) (Monoid04.fold M xs) ys.
Proof.
  intros A S M a xs ys. unfold Semigroup03.fold, Monoid04.fold, Monoid04.concat.
  repeat apply conj; try reflexivity; apply reduce_app.
Qed.

Lemma reduce_concat_init {A : Type} (M : Monoid04.Monoid A)
    (HM : Monoid04.LawfulMonoid M) (a b : A) (xs : list A) :
  Semigroup03.reduce (Monoid04.concat M) (Monoid04.concat M a b) xs =
  Monoid04.concat M a (Semigroup03.reduce (Monoid04.concat M) b xs).
Proof.
  revert b. induction xs as [|v xs IH]; intros b; cbn; [reflexivity |].
  rewrite (Monoid04.associativity M HM). apply IH.
Qed.

Lemma monoid_fold_cons {A : Type} (M : Monoid04.Monoid A)
    (HM : Monoid04.LawfulMonoid M) (v : A) (xs : list A) :
  Monoid04.fold M (v :: xs) = Monoid04.concat M v (Monoid04.fold M xs).
Proof.
  unfold Monoid04.fold. cbn [Semigroup03.reduce].
  rewrite (Monoid04.left_identity M HM).
  rewrite <- (Monoid04.right_identity M HM v) at 1.
  apply reduce_concat_init, HM.
Qed.

(** X18: for a lawful monoid, the fold of a concatenation is the [concat]
    of the folds of the two parts, so an array can be folded in chunks
    and the partial results combined; and the left-to-right fold agrees
    with the right-to-left one. *)
Theorem lawful_monoid_fold_splits :
  forall (A : Type) (M : Monoid04.Monoid A),
    Monoid04.LawfulMonoid M ->
    forall xs ys : list A,
      Monoid04.fold M (xs ++ ys) =
        Monoid04.concat M (Monoid04.fold M xs) (Monoid04.fold M ys) /\
      Monoid04.fold M xs = List.fold_right (Monoid04.concat M) (Monoid04.empty M) xs.
Proof.
  intros A M HM xs ys. split.
  - induction xs as [|v xs IH].
    + cbn [app]. unfold Monoid04.fold at 2. cbn [Semigroup03.reduce].
      now rewrite (Monoid04.left_identity M HM).
    + change ((v :: xs) ++ ys) with (v :: (xs ++ ys)).
      rewrite !(monoid_fold_cons M HM), IH.
      now rewrite (Monoid04.associativity M HM).
  - induction xs as [|v xs IH]; [reflexivity |].
    rewrite (monoid_fold_cons M HM), IH. reflexivity.
Qed.

Lemma lawful_monoid_fold_splits_witness :
  Monoid04.LawfulMonoid Monoid04.monoidString /\
  (Monoid04.fold Monoid04.monoidString (["a"%string; "b"%string] ++ ["c"%string])%list =
     Monoid04.concat Monoid04.monoidString
       (Monoid04.fold Monoid04.monoidString ["a"; "b"]%string)
       (Monoid04.fold Monoid04.monoidString ["c"]%string) /\
   Monoid04.fold Monoid04.monoidString ["a"; "b"]%string =
     List.fold_right (Monoid04.concat Monoid04.monoidString)
       (Monoid04.empty Monoid04.monoidString) ["a"; "b"]%string).
Proof.
  split.
  - exact monoidString_lawful.
  - exact (lawful_monoid_fold_splits string Monoid04.monoidString
             monoidString_lawful ["a"; "b"]%string ["c"]%string).
Defined.

(** X19: under a total order, folding with the meet semigroup returns the
    least of the initial value and the elements of the array, and folding
    with the join semigroup returns the greatest: the result is one of
    those values and lies below, respectively above, all of them. *)
Theorem fold_meet_join_extremum :
  forall (A : Type) (O : Ord02.Ord A),
    Ord02.TotalOrder O ->
    forall (a : A) (xs : list A),
      Ord02.is_least O (fun v => v = a \/ In v xs)
        (Semigroup03.fold (Semigroup03.getMeetSemigroup O) a xs) /\
      Ord02.is_greatest O (fun v => v = a \/ In v xs)
        (Semigroup03.fold (Semigroup03.getJoinSemigroup O) a xs).
Proof.
  intros A O HO a xs. unfold Semigroup03.fold. cbn [Semigroup03.concat
    Semigroup03.getMeetSemigroup Semigroup03.getJoinSemigroup].
  split.
  - revert a. induction xs as [|v xs IH]; intros a; cbn [Semigroup03.reduce].
    + split; [now left |]. intros w [Hw | []]. subst w. now apply leq_refl.
    + destruct (IH (Ord02.min O a v)) as [Hin Hlow].
      destruct (min_spec O HO a v) as (Ha & Hv & Hmin).
      split.
      * destruct Hin as [Hin | Hin].
        -- rewrite Hin. destruct Hmin as [-> | ->]; [now left | right; now left].
        -- right. now right.
      * intros w [Hw | [Hw | Hw]]; [subst w | subst w |].
        -- apply (Ord02.transitivity O HO _ (Ord02.min O a v)); [| exact Ha].
           apply Hlow. now left.
        -- apply (Ord02.transitivity O HO _ (Ord02.min O a v)); [| exact Hv].
           apply Hlow. now left.
        -- apply Hlow. now right.
  - revert a. induction xs as [|v xs IH]; intros a; cbn [Semigroup03.reduce].
    + split; [now left |]. intros w [Hw | []]. subst w. now apply leq_refl.
    + destruct (IH (Ord02.max O a v)) as [Hin Hup].
      destruct (max_spec O HO a v) as (Ha & Hv & Hmax).
      split.
      * destruct Hin as [Hin | Hin].
        -- rewrite Hin. destruct Hmax as [-> | ->]; [now left | right; now left].
        -- right. now right.
      * intros w [Hw | [Hw | Hw]]; [subst w | subst w |].
        -- apply (Ord02.transitivity O HO _ (Ord02.max O a v)); [exact Ha |].
           apply Hup. now left.
        -- apply (Ord02.transitivity O HO _ (Ord02.max O a v)); [exact Hv |].
           apply Hup. now left.
        -- apply Hup. now right.
Qed.

Lemma fold_meet_join_extremum_witness :
  Ord02.TotalOrder Ord02.ordNumber /\
  (Ord02.is_least Ord02.ordNumber (fun v => v = 5 \/ In v [3; 8; 1])
     (Semigroup03.fold (Semigroup03.getMeetSemigroup Ord02.ordNumber) 5 [3; 8; 1]) /\
   Ord02.is_greatest Ord02.ordNumber (fun v => v = 5 \/ In v [3; 8; 1])
     (Semigroup03.fold (Semigroup03.getJoinSemigroup Ord02.ordNumber) 5 [3; 8; 1])).
Proof.
  split.
  - exact ordNumber_total.
  - exact (fold_meet_join_extremum number Ord02.ordNumber ordNumber_total 5 [3; 8; 1]).
Defined.

Example fold_semigroupMin : Semigroup03.fold Semigroup03.semigroupMin 5 [3; 8; 1] = 1.
Proof. reflexivity. Qed.

Example fold_semigroupMax : Semigroup03.fold Semigroup03.semigroupMax 5 [3; 8; 1] = 8.
Proof. reflexivity. Qed.

(** ** Monoids of optional values *)

(** X20: the monoid of [Option<A>] derived by [getApplyMonoid] from a
    lawful monoid is lawful; its [empty] is the present identity
    [some(empty)], and none is absorbing on both sides. *)
Theorem getApplyMonoid_lawful :
  forall (A : Type) (M : Monoid04.Monoid A),
    Monoid04.LawfulMonoid M ->
    Monoid04.LawfulMonoid (Monoid04.getApplyMonoid M) /\
    forall a : option A,
      Monoid04.concat (Monoid04.getApplyMonoid M) a None = None /\
      Monoid04.concat (Monoid04.getApplyMonoid M) None a = None.
Proof.
  intros A M HM. split.
  - split; unfold Monoid04.concat; cbn.
    + intros a b c. destruct a, b, c; try reflexivity.
      f_equal. apply (Monoid04.associativity M HM).
    + intros a. destruct a; [| reflexivity].
      f_equal. apply (Monoid04.right_identity M HM).
    + intros a. destruct a; [| reflexivity].
      f_equal. apply (Monoid04.left_identity M HM).
  - intros a. destruct a; split; reflexivity.
Qed.

Lemma getApplyMonoid_lawful_witness :
  Monoid04.LawfulMonoid Monoid04.monoidString /\
  (Monoid04.LawfulMonoid (Monoid04.getApplyMonoid Monoid04.monoidString) /\
   forall a : option string,
     Monoid04.concat (Monoid04.getApplyMonoid Monoid04.monoidString) a None = None /\
     Monoid04.concat (Monoid04.getApplyMonoid Monoid04.monoidString) None a = None).
Proof.
  split.
  - exact monoidString_lawful.
  - exact (getApplyMonoid_lawful string Monoid04.monoidString monoidString_lawful).
Defined.

Example getApplyMonoid_sum_empty :
  Monoid04.concat (Monoid04.getApplyMonoid Monoid04.monoidSum) (Some 1)
    (Monoid04.empty (Monoid04.getApplyMonoid Monoid04.monoidSum)) = Some 1.
Proof. reflexivity. Qed.

Lemma reduce_first_some {A : Type} (v : A) (xs : list (option A)) :
  Semigroup03.reduce (Monoid04.concat Monoid04.getFirstMonoid) (Some v) xs = Some v.
Proof.
  induction xs as [|w xs IH]; cbn; [reflexivity | exact IH].
Qed.

(** X21: the monoids "first" and "last" of [Option<A>] are lawful for every
    type, with none as identity, and each is the other with the operands
    exchanged; folding an array that starts with a present value under
    "first" returns that value, and folding an array that ends with a
    present value under "last" returns that value. *)
Theorem first_last_monoids :
  forall (A : Type) (a b : option A) (v : A) (xs : list (option A)),
    Monoid04.LawfulMonoid (@Monoid04.getFirstMonoid A) /\
    Monoid04.LawfulMonoid (@Monoid04.getLastMonoid A) /\
    Monoid04.concat Monoid04.getLastMonoid a b =
      Monoid04.concat Monoid04.getFirstMonoid b a /\
    Monoid04.fold Monoid04.getFirstMonoid (Some v :: xs) = Some v /\
    Monoid04.fold Monoid04.getLastMonoid (xs ++ [Some v]) = Some v.
Proof.
  intros A a b v xs. repeat apply conj.
  - split; unfold Monoid04.concat; cbn.
    + intros x y z. now destruct x, y, z.
    + intros x. now destruct x.
    + intros x. reflexivity.
  - split; unfold Monoid04.concat; cbn.
    + intros x y z. now destruct x, y, z.
    + intros x. reflexivity.
    + intros x. now destruct x.
  - now destruct a, b.
  - unfold Monoid04.fold. cbn [Semigroup03.reduce]. apply reduce_first_some.
  - unfold Monoid04.fold. rewrite reduce_snoc. reflexivity.
Qed.

(** ** The merge strategy for customer records *)

(** X22: merging two customer records keeps the longer name, the first
    one when both have the same length; appends the second record's
    favourite things to the first's; keeps the least registration date and
    the greatest update date; and records a purchase as soon as one of the
    two records has one. *)
Theorem semigroupCustomer_merge :
  forall c1 c2 : Customer03.Customer,
    let m := Semigroup03.concat Customer03.semigroupCustomer c1 c2 in
    Customer03.name m =
      (if (String.length (Customer03.name c1) <? String.length (Customer03.name c2))%nat
       then Customer03.name c2 else Customer03.name c1) /\
    Customer03.favouriteThings m =
      Customer03.favouriteThings c1 ++ Customer03.favouriteThings c2 /\
    Customer03.registeredAt m =
      Z.min (Customer03.registeredAt c1) (Customer03.registeredAt c2) /\
    Customer03.lastUpdatedAt m =
      Z.max (Customer03.lastUpdatedAt c1) (Customer03.lastUpdatedAt c2) /\
    Customer03.hasMadePurchase m =
      Customer03.hasMadePurchase c1 || Customer03.hasMadePurchase c2.
Proof.
  intros c1 c2.
  remember (String.length (Customer03.name c1) <? String.length (Customer03.name c2))%nat
    as shorter eqn:Hshorter.
  cbn. repeat apply conj.
  - rewrite max_unfold. cbn. unfold Customer03.string_length.
    symmetry in Hshorter. destruct shorter.
    + apply Nat.ltb_lt in Hshorter.
      destruct (Z.ltb_spec (Z.of_nat (String.length (Customer03.name c2)))
                  (Z.of_nat (String.length (Customer03.name c1)))); [lia |].
      destruct (Z.gtb_spec (Z.of_nat (String.length (Customer03.name c2)))
                  (Z.of_nat (String.length (Customer03.name c1)))); [reflexivity | lia].
    + apply Nat.ltb_ge in Hshorter.
      destruct (Z.ltb_spec (Z.of_nat (String.length (Customer03.name c2)))
                  (Z.of_nat (String.length (Customer03.name c1)))); [reflexivity |].
      destruct (Z.gtb_spec (Z.of_nat (String.length (Customer03.name c2)))
                  (Z.of_nat (String.length (Customer03.name c1)))); [lia | reflexivity].
  - reflexivity.
  - rewrite min_unfold. cbn.
    destruct (Z.ltb_spec (Customer03.registeredAt c1) (Customer03.registeredAt c2));
      [lia |].
    destruct (Z.gtb_spec (Customer03.registeredAt c1) (Customer03.registeredAt c2)); lia.
  - rewrite max_unfold. cbn.
    destruct (Z.ltb_spec (Customer03.lastUpdatedAt c2) (Customer03.lastUpdatedAt c1));
      [lia |].
    destruct (Z.gtb_spec (Customer03.lastUpdatedAt c2) (Customer03.lastUpdatedAt c1)); lia.
  - reflexivity.
Qed.

Example semigroupCustomer_names :
  Customer03.name
    (Customer03.foldCustomer
       (Customer03.mkCustomer "Lean" ["food"; "code"]%string 10 30 false)
       [Customer03.mkCustomer "Leandro" ["linux"]%string 12 20 true;
        Customer03.mkCustomer "Leandro I" ["chocolate"]%string 40 50 true]) =
  "Leandro I"%string.
Proof. reflexivity. Qed.
